(** * Verification of three fyne subsystems

    - [Theme]  : theme/color.go, the colour-resolution functions;
    - [Layout] : layout/formlayout.go, the two-column form layout;
    - [Prefs]  : app/preferences.go, the debounced preferences store.

    Each module is a shallow embedding of the Go source: pure functions
    become functions, a run-time panic or a returned [error] becomes an
    [option] or an explicit error value, and mutable receiver state is
    threaded explicitly. *)

From Stdlib Require Import ZArith Floats.SpecFloat.
From stdpp Require Import gmap strings list fin_maps.

Open Scope Z_scope.

(* ===================================================================== *)
(** * theme/color.go *)
(* ===================================================================== *)

Module Theme.

(** [color.NRGBA]: four [uint8] channels. *)
Record NRGBA := mkNRGBA { R : Z; G : Z; B : Z; A : Z }.

(** A [color.Color] interface value: [None] is the [nil] interface, [Some c]
    holds a concrete colour (every colour built in this file is an NRGBA). *)
Definition color_Color := option NRGBA.

Definition ThemeColorName := string.
Definition ThemeVariant := Z.

(** [fyne.Theme], reduced to the one method this file calls. *)
Record fyne_Theme := { Color_of : ThemeColorName -> ThemeVariant -> color_Color }.

(** The primary colour names. *)
Definition ColorRed : string := "red".
Definition ColorOrange : string := "orange".
Definition ColorYellow : string := "yellow".
Definition ColorGreen : string := "green".
Definition ColorBlue : string := "blue".
Definition ColorPurple : string := "purple".
Definition ColorBrown : string := "brown".
Definition ColorGray : string := "gray".

(** The theme lookup names. *)
Definition ColorNameBackground : ThemeColorName := "background".
Definition ColorNameButton : ThemeColorName := "button".
Definition ColorNameDisabledButton : ThemeColorName := "disabledButton".
Definition ColorNameDisabled : ThemeColorName := "disabled".
Definition ColorNameError : ThemeColorName := "error".
Definition ColorNameErrorForeground : ThemeColorName := "errorForeground".
Definition ColorNameFocus : ThemeColorName := "focus".
Definition ColorNameForeground : ThemeColorName := "foreground".
Definition ColorNameHeaderBackground : ThemeColorName := "headerBackground".
Definition ColorNameHover : ThemeColorName := "hover".
Definition ColorNameHyperlink : ThemeColorName := "hyperlink".
Definition ColorNameInputBackground : ThemeColorName := "inputBackground".
Definition ColorNameInputBorder : ThemeColorName := "inputBorder".
Definition ColorNameMenuBackground : ThemeColorName := "menuBackground".
Definition ColorNameOverlayBackground : ThemeColorName := "overlayBackground".
Definition ColorNamePlaceHolder : ThemeColorName := "placeholder".
Definition ColorNamePressed : ThemeColorName := "pressed".
Definition ColorNamePrimary : ThemeColorName := "primary".
Definition ColorNamePrimaryForeground : ThemeColorName := "primaryForeground".
Definition ColorNameScrollBar : ThemeColorName := "scrollBar".
Definition ColorNameSelection : ThemeColorName := "selection".
Definition ColorNameSeparator : ThemeColorName := "separator".
Definition ColorNameShadow : ThemeColorName := "shadow".
Definition ColorNameSuccess : ThemeColorName := "success".
Definition ColorNameSuccessForeground : ThemeColorName := "successForeground".
Definition ColorNameWarning : ThemeColorName := "warning".
Definition ColorNameWarningForeground : ThemeColorName := "warningForeground".

(** The two package-level colours the named-colour functions return. *)
Definition colorDarkBackground : NRGBA := mkNRGBA 0x17 0x17 0x18 0xff.
Definition colorLightBackground : NRGBA := mkNRGBA 0xff 0xff 0xff 0xff.

(** [PrimaryForegroundColorNamed]: a [switch] on the name, blue's value
    after it. *)
Definition PrimaryForegroundColorNamed (name : string) : color_Color :=
  if String.eqb name ColorRed then Some colorLightBackground
  else if String.eqb name ColorOrange then Some colorDarkBackground
  else if String.eqb name ColorYellow then Some colorDarkBackground
  else if String.eqb name ColorGreen then Some colorDarkBackground
  else if String.eqb name ColorPurple then Some colorLightBackground
  else if String.eqb name ColorBrown then Some colorLightBackground
  else if String.eqb name ColorGray then Some colorDarkBackground
  else Some colorLightBackground.

(** [PrimaryColorNamed]. *)
Definition PrimaryColorNamed (name : string) : color_Color :=
  if String.eqb name ColorRed then Some (mkNRGBA 0xf4 0x43 0x36 0xff)
  else if String.eqb name ColorOrange then Some (mkNRGBA 0xff 0x98 0x00 0xff)
  else if String.eqb name ColorYellow then Some (mkNRGBA 0xff 0xeb 0x3b 0xff)
  else if String.eqb name ColorGreen then Some (mkNRGBA 0x8b 0xc3 0x4a 0xff)
  else if String.eqb name ColorPurple then Some (mkNRGBA 0x9c 0x27 0xb0 0xff)
  else if String.eqb name ColorBrown then Some (mkNRGBA 0x79 0x55 0x48 0xff)
  else if String.eqb name ColorGray then Some (mkNRGBA 0x9e 0x9e 0x9e 0xff)
  else Some (mkNRGBA 0x29 0x6f 0xf6 0xff).

Definition PrimaryColorNames : list string :=
  [ColorRed; ColorOrange; ColorYellow; ColorGreen; ColorBlue; ColorPurple;
   ColorBrown; ColorGray].

(** The package state the accessors read, none of it declared in
    color.go: the process-wide theme ([Current()]), the variant
    ([currentVariant()]), the per-widget theme ([CurrentForWidget]) and
    the package variable [fallbackColor].  [Widget] stands for [fyne.Widget],
    which the file never looks inside.

    Modelled from the spec: [fallbackColor] is "a fixed default color",
    hence a concrete colour and not a nil interface. *)
Record env (Widget : Type) := {
  Current : fyne_Theme;
  currentVariant : ThemeVariant;
  CurrentForWidget : Widget -> fyne_Theme;
  fallbackColor : NRGBA
}.

Arguments Current {Widget} _.
Arguments currentVariant {Widget} _.
Arguments CurrentForWidget {Widget} _ _.
Arguments fallbackColor {Widget} _.

(** An accessor returns its colour together with the lines it hands to
    [fyne.LogError]. *)
Definition logged (X : Type) : Type := (X * list string)%type.

Definition safeColorLookup {Widget : Type} (e : env Widget) (n : ThemeColorName) (v : ThemeVariant)
  : logged color_Color :=
  let col := Color_of (Current e) n v in
  match col with
  | None => (Some (fallbackColor e), ["Loaded theme returned nil color"%string])
  | Some _ => (col, [])
  end.

Definition BackgroundColor {Widget : Type} (e : env Widget) := safeColorLookup e ColorNameBackground (currentVariant e).
Definition ButtonColor {Widget : Type} (e : env Widget) := safeColorLookup e ColorNameButton (currentVariant e).
Definition Color {Widget : Type} (e : env Widget) (name : ThemeColorName) := safeColorLookup e name (currentVariant e).
Definition ColorForWidget {Widget : Type} (e : env Widget) (name : ThemeColorName) (w : Widget) : logged color_Color :=
  (Color_of (CurrentForWidget e w) name (currentVariant e), []).
Definition DisabledButtonColor {Widget : Type} (e : env Widget) := safeColorLookup e ColorNameDisabledButton (currentVariant e).
Definition DisabledColor {Widget : Type} (e : env Widget) := safeColorLookup e ColorNameDisabled (currentVariant e).
Definition DisabledTextColor {Widget : Type} (e : env Widget) := DisabledColor e.
Definition ErrorColor {Widget : Type} (e : env Widget) := safeColorLookup e ColorNameError (currentVariant e).
Definition FocusColor {Widget : Type} (e : env Widget) := safeColorLookup e ColorNameFocus (currentVariant e).
Definition ForegroundColor {Widget : Type} (e : env Widget) := safeColorLookup e ColorNameForeground (currentVariant e).
Definition HeaderBackgroundColor {Widget : Type} (e : env Widget) : logged color_Color :=
  (Color_of (Current e) ColorNameHeaderBackground (currentVariant e), []).
Definition HoverColor {Widget : Type} (e : env Widget) := safeColorLookup e ColorNameHover (currentVariant e).
Definition HyperlinkColor {Widget : Type} (e : env Widget) := safeColorLookup e ColorNameHyperlink (currentVariant e).
Definition InputBackgroundColor {Widget : Type} (e : env Widget) : logged color_Color :=
  (Color_of (Current e) ColorNameInputBackground (currentVariant e), []).
Definition InputBorderColor {Widget : Type} (e : env Widget) : logged color_Color :=
  (Color_of (Current e) ColorNameInputBorder (currentVariant e), []).
Definition MenuBackgroundColor {Widget : Type} (e : env Widget) := safeColorLookup e ColorNameMenuBackground (currentVariant e).
Definition OverlayBackgroundColor {Widget : Type} (e : env Widget) := safeColorLookup e ColorNameOverlayBackground (currentVariant e).
Definition PlaceHolderColor {Widget : Type} (e : env Widget) := safeColorLookup e ColorNamePlaceHolder (currentVariant e).
Definition PressedColor {Widget : Type} (e : env Widget) := safeColorLookup e ColorNamePressed (currentVariant e).
Definition PrimaryColor {Widget : Type} (e : env Widget) := safeColorLookup e ColorNamePrimary (currentVariant e).
Definition ScrollBarColor {Widget : Type} (e : env Widget) := safeColorLookup e ColorNameScrollBar (currentVariant e).
Definition SelectionColor {Widget : Type} (e : env Widget) := safeColorLookup e ColorNameSelection (currentVariant e).
Definition SeparatorColor {Widget : Type} (e : env Widget) := safeColorLookup e ColorNameSeparator (currentVariant e).
Definition ShadowColor {Widget : Type} (e : env Widget) := safeColorLookup e ColorNameShadow (currentVariant e).
Definition SuccessColor {Widget : Type} (e : env Widget) := safeColorLookup e ColorNameSuccess (currentVariant e).
Definition WarningColor {Widget : Type} (e : env Widget) := safeColorLookup e ColorNameWarning (currentVariant e).


(** A theme that defines no colour at all, and the package state built on
    it (dark variant, transparent fallback). *)
Definition undefinedTheme : fyne_Theme := {| Color_of := fun _ _ => None |}.

Definition undefinedEnv : env unit :=
  {| Current := undefinedTheme;
     currentVariant := 0;
     CurrentForWidget := fun _ => undefinedTheme;
     fallbackColor := mkNRGBA 0 0 0 0 |}.

(** The accessors that go through [safeColorLookup], as one list. *)
Definition safeAccessors {Widget : Type} : list (env Widget -> logged color_Color) :=
  [BackgroundColor; ButtonColor; DisabledButtonColor; DisabledColor;
   DisabledTextColor; ErrorColor; FocusColor; ForegroundColor; HoverColor;
   HyperlinkColor; MenuBackgroundColor; OverlayBackgroundColor;
   PlaceHolderColor; PressedColor; PrimaryColor; ScrollBarColor;
   SelectionColor; SeparatorColor; ShadowColor; SuccessColor; WarningColor].

(** The seven names the [switch] of the named-colour functions lists. *)
Definition switchNames : list string :=
  [ColorRed; ColorOrange; ColorYellow; ColorGreen;
   ColorPurple; ColorBrown; ColorGray].

End Theme.

(* ===================================================================== *)
(** * layout/formlayout.go *)
(* ===================================================================== *)

Module Layout.

(** ** float32

    Go's [float32] is IEEE 754 binary32: 24 bits of precision, exponents
    below 128, round to nearest even.  [spec_float] with these parameters
    is that format, and its operations compute. *)
Definition float32 := spec_float.

Definition f32 (z : Z) : float32 := binary_normalize 24 128 z 0 false.
Definition fadd : float32 -> float32 -> float32 := SFadd 24 128.
Definition fsub : float32 -> float32 -> float32 := SFsub 24 128.
Definition fmul : float32 -> float32 -> float32 := SFmul 24 128.
(** [x > y] *)
Definition fgt (x y : float32) : bool := SFltb y x.

(** Modelled from the spec: [fyne.Max] (package fyne, not in this file),
    "the max of" two [float32] values: [x] when [x > y], else [y]. *)
Definition fyne_Max (x y : float32) : float32 := if fgt x y then x else y.

(** ** fyne.Size, fyne.Position *)
Record Size := NewSize { Width : float32; Height : float32 }.
Record Position := NewPos { X : float32; Y : float32 }.

Definition withWidth (s : Size) (w : float32) : Size := NewSize w (Height s).
Definition withHeight (s : Size) (h : float32) : Size := NewSize (Width s) h.

(** ** fyne.CanvasObject

    The interface is reduced to what the layout calls.  An object answers
    [Visible()] and [MinSize()] from its fields, [Move] and [Resize] store
    their argument, and [isText] tells whether the dynamic type is
    [*canvas.Text].  The objects of one list are distinct objects. *)
Record CanvasObject := {
  visible : bool;
  minSize : Size;
  isText : bool;
  position : Position;
  size : Size
}.

Definition obj_Visible (o : CanvasObject) : bool := visible o.
Definition obj_MinSize (o : CanvasObject) : Size := minSize o.
Definition obj_Move (o : CanvasObject) (p : Position) : CanvasObject :=
  {| visible := visible o; minSize := minSize o; isText := isText o;
     position := p; size := size o |}.
Definition obj_Resize (o : CanvasObject) (s : Size) : CanvasObject :=
  {| visible := visible o; minSize := minSize o; isText := isText o;
     position := position o; size := s |}.

Definition formLayoutCols : nat := 2.

(** A table row, [[2]fyne.Size]. *)
Definition tableRow := (Size * Size)%type.
Definition zeroSize : Size := NewSize (f32 0) (f32 0).
Definition zeroRow : tableRow := (zeroSize, zeroSize).

(** [countRows].  [rest] is [objects[i:]] at the head of an iteration; the
    result is [None] when an index expression is out of range (Go panics).
    With a single object left, [objects[i+1]] is evaluated only when
    [objects[i]] is not visible ([&&] short-circuits). *)
Fixpoint countRows_loop (rest : list CanvasObject) (count : nat) : option nat :=
  match rest with
  | [] => Some count
  | [o] => if negb (obj_Visible o) then None else Some (S count)
  | o :: o' :: rest' =>
      if negb (obj_Visible o) && negb (obj_Visible o')
      then countRows_loop rest' count
      else countRows_loop rest' (S count)
  end.

Definition countRows (objects : list CanvasObject) : option nat :=
  countRows_loop objects 0%nat.

Section WithTheme.

(** [theme.Padding()] and [theme.InnerPadding()], read from the current
    theme. *)
Variables padding innerPadding : float32.

(** The cells of one visible row, as the loop body of [tableCellsSize]
    computes them: the label cell (widened for a text object) and the
    content cell, both at the row height. *)
Definition labelCellOf (l : CanvasObject) : Size :=
  let labelCell := obj_MinSize l in
  if isText l
  then withWidth labelCell (fadd (Width labelCell) (fmul innerPadding (f32 2)))
  else labelCell.

Definition rowCells (l c : CanvasObject) : tableRow :=
  let labelCell := labelCellOf l in
  let contentCell := obj_MinSize c in
  let rowHeight := fyne_Max (Height labelCell) (Height contentCell) in
  (withHeight labelCell rowHeight, withHeight contentCell rowHeight).

(** The loop of [tableCellsSize].  [rest] is [objects[lowBound:]];
    [objects[lowBound:highBound]] needs two more objects, otherwise the
    slice expression is out of range and the result is [None].  The
    assignment to [table[row]] is in range because [row < rows]. *)
Fixpoint tableCells_loop (rest : list CanvasObject) (rows row : nat)
    (labelCellMaxWidth contentCellMaxWidth : float32) (table : list tableRow)
    {struct rest} : option (float32 * float32 * list tableRow) :=
  if (row <? rows)%nat then
    match rest with
    | l :: c :: rest' =>
        if negb (obj_Visible l) && negb (obj_Visible c)
        then tableCells_loop rest' rows row labelCellMaxWidth contentCellMaxWidth table
        else
          let cells := rowCells l c in
          let labelCellMaxWidth := fyne_Max labelCellMaxWidth (Width (fst cells)) in
          let contentCellMaxWidth := fyne_Max contentCellMaxWidth (Width (snd cells)) in
          tableCells_loop rest' rows (S row) labelCellMaxWidth contentCellMaxWidth
            (<[row := cells]> table)
    | _ => None
    end
  else Some (labelCellMaxWidth, contentCellMaxWidth, table).

Definition tableCellsSize (objects : list CanvasObject) (containerWidth : float32)
  : option (float32 * float32 * list tableRow) :=
  match countRows objects with
  | None => None
  | Some rows =>
      let table := replicate rows zeroRow in
      if negb (length objects mod formLayoutCols =? 0)%nat
      then Some (f32 0, f32 0, table)
      else
        match tableCells_loop objects rows 0%nat (f32 0) (f32 0) table with
        | None => None
        | Some (labelCellMaxWidth, contentCellMaxWidth, table) =>
            Some (labelCellMaxWidth,
                  fyne_Max contentCellMaxWidth
                    (fsub (fsub containerWidth labelCellMaxWidth) padding),
                  table)
        end
  end.

(** The height loop of [MinSize]. *)
Fixpoint minHeight_loop (table : list tableRow) (height : float32) (added : bool)
  : float32 :=
  match table with
  | [] => height
  | r :: table' =>
      let height := fadd height (Height (fst r)) in
      let height := if added then fadd height padding else height in
      minHeight_loop table' height true
  end.

Definition MinSize (objects : list CanvasObject) : option Size :=
  match tableCellsSize objects (f32 0) with
  | None => None
  | Some (labelWidth, contentWidth, table) =>
      if (length table =? 0)%nat then Some (NewSize (f32 0) (f32 0))
      else Some (NewSize (fadd (fadd labelWidth contentWidth) padding)
                         (minHeight_loop table (f32 0) false))
  end.

(** The body of one [Layout] iteration, split as the source's blocks. *)

(** [if row > 0 { y += table[row-1][0].Height + padding }], then
    [tableRow := table[row]]. *)
Definition rowStart (table : list tableRow) (row : nat) (y : float32)
  : option (float32 * tableRow) :=
  match (if (0 <? row)%nat
         then match table !! (row - 1)%nat with
              | Some prev => Some (fadd y (fadd (Height (fst prev)) padding))
              | None => None
              end
         else Some y) with
  | None => None
  | Some y =>
      match table !! row with
      | Some r => Some (y, r)
      | None => None
      end
  end.

Definition placeLabel (o : CanvasObject) (labelWidth y : float32) (r : tableRow)
  : CanvasObject :=
  if isText o
  then
    let o := obj_Move o (NewPos innerPadding (fadd y innerPadding)) in
    obj_Resize o (NewSize (fsub labelWidth (fmul innerPadding (f32 2)))
                          (Height (obj_MinSize o)))
  else
    let o := obj_Move o (NewPos (f32 0) y) in
    obj_Resize o (NewSize labelWidth (Height (fst r))).

Definition placeContent (o : CanvasObject) (labelWidth contentWidth y : float32)
    (r : tableRow) : CanvasObject :=
  if isText o
  then
    let o := obj_Move o (NewPos (fadd (fadd padding labelWidth) innerPadding)
                                (fadd y innerPadding)) in
    obj_Resize o (NewSize (fsub contentWidth (fmul innerPadding (f32 2)))
                          (Height (obj_MinSize o)))
  else
    let o := obj_Move o (NewPos (fadd padding labelWidth) y) in
    obj_Resize o (NewSize contentWidth (Height (fst r))).

(** The loop of [Layout]: [rest] is [objects[i:]], the result is the list
    of the objects from [i] on as the loop leaves them. *)
Fixpoint Layout_loop (labelWidth contentWidth : float32) (table : list tableRow)
    (rest : list CanvasObject) (row : nat) (y : float32)
  : option (list CanvasObject) :=
  match rest with
  | [] => Some []
  | [l] =>
      match rowStart table row y with
      | None => None
      | Some (y, r) => Some [placeLabel l labelWidth y r]
      end
  | l :: c :: rest' =>
      if negb (obj_Visible l) && negb (obj_Visible c)
      then
        match Layout_loop labelWidth contentWidth table rest' row y with
        | None => None
        | Some out => Some (l :: c :: out)
        end
      else
        match rowStart table row y with
        | None => None
        | Some (y, r) =>
            match Layout_loop labelWidth contentWidth table rest' (S row) y with
            | None => None
            | Some out =>
                Some (placeLabel l labelWidth y r
                      :: placeContent c labelWidth contentWidth y r :: out)
            end
        end
  end.

Definition Layout (objects : list CanvasObject) (size : Size)
  : option (list CanvasObject) :=
  match tableCellsSize objects (Width size) with
  | None => None
  | Some (labelWidth, contentWidth, table) =>
      Layout_loop labelWidth contentWidth table objects 0%nat (f32 0)
  end.

End WithTheme.

(** ** Rows that take part in the layout *)

(** The list without the rows whose label and content are both invisible. *)
Fixpoint shownRows (objects : list CanvasObject) : list CanvasObject :=
  match objects with
  | l :: c :: rest =>
      if negb (obj_Visible l) && negb (obj_Visible c)
      then shownRows rest
      else l :: c :: shownRows rest
  | rest => rest
  end.

(** [hiddenRowAt objects i]: [i] is the index of the label of a row whose
    two cells are invisible. *)
Definition hiddenRowAt (objects : list CanvasObject) (i : nat) : Prop :=
  (i mod 2 = 0)%nat /\
  exists l c, objects !! i = Some l /\ objects !! S i = Some c /\
              obj_Visible l = false /\ obj_Visible c = false.

(** Objects for the examples: a plain (non-text) object of a given
    minimum size. *)
Definition box (vis : bool) (w h : Z) : CanvasObject :=
  {| visible := vis; minSize := NewSize (f32 w) (f32 h); isText := false;
     position := NewPos (f32 0) (f32 0); size := zeroSize |}.

(** The form of the height example: two rows, label and content heights
    (10, 20) and (30, 5). *)
Definition form2 : list CanvasObject :=
  [box true 40 10; box true 60 20; box true 40 30; box true 60 5].

(** A list of odd length whose last object is invisible, and one whose
    last object is visible. *)
Definition oddHidden : list CanvasObject :=
  [box true 40 10; box true 60 20; box false 40 10].
Definition oddShown : list CanvasObject :=
  [box true 40 10; box true 60 20; box true 40 10].

(** A form whose middle row is invisible. *)
Definition form3 : list CanvasObject :=
  [box true 40 10; box true 60 20; box false 40 30; box false 60 5;
   box false 40 7; box true 60 9].

(** ** What the size computation amounts to *)

(** The cells of a list of rows, one [rowCells] per (label, content) pair. *)
Fixpoint cellsOf (innerPadding : float32) (objects : list CanvasObject)
  : list tableRow :=
  match objects with
  | l :: c :: rest => rowCells innerPadding l c :: cellsOf innerPadding rest
  | _ => []
  end.

(** The running maxima of the label and of the content column, from the
    widths [lw] and [cw] on. *)
Definition labelWidthFrom (lw : float32) (cells : list tableRow) : float32 :=
  fold_left (fun m r => fyne_Max m (Width (fst r))) cells lw.
Definition contentWidthFrom (cw : float32) (cells : list tableRow) : float32 :=
  fold_left (fun m r => fyne_Max m (Width (snd r))) cells cw.

(** Two objects that answer [Visible()], [MinSize()] and the type test
    alike; they may differ in position and size. *)
Definition sameShape (o o' : CanvasObject) : Prop :=
  visible o = visible o' /\ minSize o = minSize o' /\ isText o = isText o'.

(** A text object, for the examples. *)
Definition text (vis : bool) (w h : Z) : CanvasObject :=
  {| visible := vis; minSize := NewSize (f32 w) (f32 h); isText := true;
     position := NewPos (f32 0) (f32 0); size := zeroSize |}.

(** A form with a text label, and a form of invisible rows only. *)
Definition formText : list CanvasObject :=
  [text true 40 10; box true 60 20; box false 1 1; box false 1 1;
   box true 50 30; text true 70 5].
Definition formHidden : list CanvasObject :=
  [box false 40 10; box false 60 20; text false 40 30; box false 60 5].

(** The container of the examples, and [form3] as [Layout] leaves it at
    that size with padding 4 and inner padding 8. *)
Definition container300 : Size := NewSize (f32 300) (f32 200).
Definition form3Laid : list CanvasObject :=
  Eval vm_compute in
    default [] (Layout (f32 4) (f32 8) form3 container300).

End Layout.

(* ===================================================================== *)
(** * app/preferences.go *)
(* ===================================================================== *)

Module Prefs.

(** ** Errors and the file system

    The [error] values the code tells apart: [os.IsNotExist], [os.IsExist],
    and everything else. *)
Inductive error :=
| ErrNotExist
| ErrExist
| ErrPermission
| ErrBadFile
| ErrIO
| ErrEncode
| ErrDecode.

Definition IsNotExist (e : error) : bool :=
  match e with ErrNotExist => true | _ => false end.
Definition IsExist (e : error) : bool :=
  match e with ErrExist => true | _ => false end.

(** An open [*os.File]: the path it was opened on and whether it was opened
    for writing ([os.Create]) or for reading only ([os.Open]). *)
Record handle := { hpath : string; writable : bool }.

Section Store.

(** The values of the map, Go's [interface{}]. *)
Variable value : Type.
(** What a file holds. *)
Variable content : Type.
Variable emptyContent : content.
(** [encoding/json]: [Encode] of the whole map ([None]: an unsupported
    value) and [Decode] of a document into a map ([None]: malformed). *)
Variable encode : gmap string value -> option content.
Variable decode : content -> option (gmap string value).
(** [filepath.Dir]. *)
Variable Dir : string -> string.

(** The file system: the files and directories that exist, and for every
    call and path the error the operating system answers with, if any. *)
Record fs := {
  files : gmap string content;
  dirs : gset string;
  mkdirAllErr : string -> option error;
  createErr : string -> option error;
  openErr : string -> option error;
  writeErr : string -> option error;
  syncErr : string -> option error;
  closeErr : string -> option error
}.

Definition with_files (d : fs) (f : gmap string content) : fs :=
  {| files := f; dirs := dirs d; mkdirAllErr := mkdirAllErr d;
     createErr := createErr d; openErr := openErr d; writeErr := writeErr d;
     syncErr := syncErr d; closeErr := closeErr d |}.
Definition with_dirs (d : fs) (s : gset string) : fs :=
  {| files := files d; dirs := s; mkdirAllErr := mkdirAllErr d;
     createErr := createErr d; openErr := openErr d; writeErr := writeErr d;
     syncErr := syncErr d; closeErr := closeErr d |}.

(** [os.MkdirAll(dir, 0700)] *)
Definition os_MkdirAll (d : fs) (dir : string) : fs * option error :=
  match mkdirAllErr d dir with
  | Some e => (d, Some e)
  | None => (with_dirs d ({[dir]} ∪ dirs d), None)
  end.

(** [os.Create(path)]: creates or truncates. *)
Definition os_Create (d : fs) (path : string) : fs * (error + handle) :=
  match createErr d path with
  | Some e => (d, inl e)
  | None => (with_files d (<[path := emptyContent]> (files d)),
             inr {| hpath := path; writable := true |})
  end.

(** [os.Open(path)]: read only; a path that names no file is an
    [IsNotExist] error. *)
Definition os_Open (d : fs) (path : string) : error + handle :=
  match openErr d path with
  | Some e => inl e
  | None =>
      match files d !! path with
      | None => inl ErrNotExist
      | Some _ => inr {| hpath := path; writable := false |}
      end
  end.

(** Writing the encoder's output through a handle. *)
Definition file_Write (d : fs) (h : handle) (c : content) : fs * option error :=
  if writable h
  then match writeErr d (hpath h) with
       | Some e => (d, Some e)
       | None => (with_files d (<[hpath h := c]> (files d)), None)
       end
  else (d, Some ErrBadFile).

Definition file_Read (d : fs) (h : handle) : content :=
  default emptyContent (files d !! hpath h).

Definition file_Sync (d : fs) (h : handle) : option error := syncErr d (hpath h).
Definition file_Close (d : fs) (h : handle) : option error := closeErr d (hpath h).

(** ** The store *)

(** Go's [int] (64 bits): the value of [z] after wrap-around. *)
Definition wrap_int (z : Z) : Z := (z + 2 ^ 63) mod 2 ^ 64 - 2 ^ 63.

(** [preferences].  [values] is the map inside the embedded
    [InMemoryPreferences]; [storagePath] is what [p.storagePath()] answers;
    [hasListener] tells whether [newPreferences] registered its change
    listener (it does not for an app without unique ID). *)
Record preferences := {
  values : gmap string value;
  loadingInProgress : bool;
  suspendChange : bool;
  numSuspendedChanges : Z;
  storagePath : string;
  hasListener : bool
}.

Definition set_values (p : preferences) (m : gmap string value) : preferences :=
  {| values := m; loadingInProgress := loadingInProgress p;
     suspendChange := suspendChange p;
     numSuspendedChanges := numSuspendedChanges p;
     storagePath := storagePath p; hasListener := hasListener p |}.
Definition set_loadingInProgress (p : preferences) (b : bool) : preferences :=
  {| values := values p; loadingInProgress := b;
     suspendChange := suspendChange p;
     numSuspendedChanges := numSuspendedChanges p;
     storagePath := storagePath p; hasListener := hasListener p |}.
Definition set_suspendChange (p : preferences) (b : bool) : preferences :=
  {| values := values p; loadingInProgress := loadingInProgress p;
     suspendChange := b;
     numSuspendedChanges := numSuspendedChanges p;
     storagePath := storagePath p; hasListener := hasListener p |}.
Definition set_numSuspendedChanges (p : preferences) (n : Z) : preferences :=
  {| values := values p; loadingInProgress := loadingInProgress p;
     suspendChange := suspendChange p;
     numSuspendedChanges := n;
     storagePath := storagePath p; hasListener := hasListener p |}.

(** What an execution leaves behind, for counting. *)
Inductive event :=
| EvSave (path : string)                   (* saveToFile was entered *)
| EvWrite (path : string)                  (* the encoded map reached the file *)
| EvChange (loading suspended : bool)      (* the listener ran and read these flags *)
| EvLogError (msg : string) (e : error).   (* fyne.LogError *)

(** The process: the store, the file system, the number of [resetSuspend]
    goroutines asleep, and the events so far (latest last). *)
Record world := {
  prefs : preferences;
  disk : fs;
  timers : nat;
  trace : list event
}.

Definition with_prefs (w : world) (p : preferences) : world :=
  {| prefs := p; disk := disk w; timers := timers w; trace := trace w |}.
Definition with_disk (w : world) (d : fs) : world :=
  {| prefs := prefs w; disk := d; timers := timers w; trace := trace w |}.
Definition with_timers (w : world) (n : nat) : world :=
  {| prefs := prefs w; disk := disk w; timers := n; trace := trace w |}.
Definition emit (w : world) (ev : event) : world :=
  {| prefs := prefs w; disk := disk w; timers := timers w;
     trace := trace w ++ [ev] |}.

(** [resetSuspend]: starts the goroutine, which sleeps first. *)
Definition resetSuspend (w : world) : world := with_timers w (S (timers w)).

(** The tail of [saveToFile], from [json.NewEncoder(file)] on: encode the
    map (under [ReadValues]), sync, and the deferred [file.Close()] whose
    result is dropped. *)
Definition encodeAndSync (w : world) (file : handle) : world * option error :=
  let '(w, err) :=
    match encode (values (prefs w)) with
    | None => (w, Some ErrEncode)
    | Some c =>
        match file_Write (disk w) file c with
        | (d, Some e) => (with_disk w d, Some e)
        | (d, None) => (emit (with_disk w d) (EvWrite (hpath file)), None)
        end
    end in
  let err2 := file_Sync (disk w) file in
  let err := match err with None => err2 | Some _ => err end in
  (w, err).

(** [saveToFile]: every return path runs the deferred [resetSuspend]. *)
Definition saveToFile (w : world) (path : string) : world * option error :=
  let w := with_prefs w (set_suspendChange (prefs w) true) in
  let w := emit w (EvSave path) in
  let '(w, err) :=
    match os_MkdirAll (disk w) (Dir path) with
    | (d, Some err) => (with_disk w d, Some err)
    | (d, None) =>
        let w := with_disk w d in
        match os_Create (disk w) path with
        | (d, inl err) =>
            let w := with_disk w d in
            if negb (IsExist err) then (w, Some err)
            else
              match os_Open (disk w) path with
              | inl err => (w, Some err)
              | inr file => encodeAndSync w file
              end
        | (d, inr file) => encodeAndSync (with_disk w d) file
        end
    end in
  (resetSuspend w, err).

Definition save (w : world) : world * option error :=
  saveToFile w (storagePath (prefs w)).

(** The change listener of [newPreferences]: first the part under
    [prefLock]... *)
Definition listenerLocked (p : preferences) : preferences * bool :=
  let shouldIgnoreChange := suspendChange p || loadingInProgress p in
  let p := if suspendChange p
           then set_numSuspendedChanges p (wrap_int (numSuspendedChanges p + 1))
           else p in
  (p, shouldIgnoreChange).

(** ... then the save, unless the change is ignored. *)
Definition changeListener (w : world) : world :=
  let w := emit w (EvChange (loadingInProgress (prefs w)) (suspendChange (prefs w))) in
  let '(p, shouldIgnoreChange) := listenerLocked (prefs w) in
  let w := with_prefs w p in
  if shouldIgnoreChange then w
  else
    match save w with
    | (w, Some err) => emit w (EvLogError "Failed on saving preferences" err)
    | (w, None) => w
    end.

(** Modelled from the spec: [InMemoryPreferences] (package internal) is not
    in this file.  "Any mutation to the map fires a change notification":
    [FireChange] runs the registered listeners and returns when they have
    run; [WriteValues] runs its function on the map and then fires a
    change; [ReadValues] only runs its function. *)
Definition FireChange (w : world) : world :=
  if hasListener (prefs w) then changeListener w else w.

(** The goroutine of [resetSuspend] once its sleep is over. *)
Definition resetFire (w : world) : world :=
  match timers w with
  | O => w
  | S n =>
      let w := with_timers w n in
      let changes := numSuspendedChanges (prefs w) in
      let w := with_prefs w
                 (set_numSuspendedChanges (set_suspendChange (prefs w) false) 0) in
      if 0 <? changes then FireChange w else w
  end.

(** [loadFromFile] *)
Definition loadFromFile (w : world) (path : string) : world * option error :=
  match os_Open (disk w) path with
  | inl err =>
      if IsNotExist err
      then
        match os_MkdirAll (disk w) (Dir path) with
        | (d, Some err) => (with_disk w d, Some err)
        | (d, None) => (with_disk w d, None)
        end
      else (w, Some err)
  | inr file =>
      let w := with_prefs w (set_loadingInProgress (prefs w) true) in
      let '(w, err) :=
        match decode (file_Read (disk w) file) with
        | Some m => (with_prefs w (set_values (prefs w) (m ∪ values (prefs w))), None)
        | None => (w, Some ErrDecode)
        end in
      let w := FireChange w in
      let w := with_prefs w (set_loadingInProgress (prefs w) false) in
      let err := match file_Close (disk w) file, err with
                 | Some r, None => Some r
                 | _, _ => err
                 end in
      (w, err)
  end.

Definition load (w : world) : world :=
  match loadFromFile w (storagePath (prefs w)) with
  | (w, Some err) => emit w (EvLogError "Preferences load error:" err)
  | (w, None) => w
  end.

(** [newPreferences]: the store of an app with the given unique ID; the
    listener is registered unless the ID is empty. *)
Definition newPreferences (uniqueID path : string) : preferences :=
  {| values := ∅; loadingInProgress := false; suspendChange := false;
     numSuspendedChanges := 0; storagePath := path;
     hasListener := negb (String.eqb uniqueID "") |}.

(** ** Counting *)

Definition isSave (ev : event) : bool :=
  match ev with EvSave _ => true | _ => false end.
Definition isWrite (ev : event) : bool :=
  match ev with EvWrite _ => true | _ => false end.
Definition count (f : event -> bool) (t : list event) : nat :=
  length (List.filter f t).
Definition saveCount (w : world) : nat := count isSave (trace w).
Definition writeCount (w : world) : nat := count isWrite (trace w).

(** [n] change notifications in a row, no timer expiring in between. *)
Fixpoint notify (n : nat) (w : world) : world :=
  match n with
  | O => w
  | S n => notify n (FireChange w)
  end.


End Store.

Arguments files {content} _.
Arguments dirs {content} _.
Arguments mkdirAllErr {content} _ _.
Arguments createErr {content} _ _.
Arguments openErr {content} _ _.
Arguments writeErr {content} _ _.
Arguments syncErr {content} _ _.
Arguments closeErr {content} _ _.
Arguments with_files {content} d f.
Arguments with_dirs {content} d s.
Arguments os_MkdirAll {content} d dir.
Arguments os_Create {content} emptyContent d path.
Arguments os_Open {content} d path.
Arguments file_Write {content} d h c.
Arguments file_Read {content} emptyContent d h.
Arguments file_Sync {content} d h.
Arguments file_Close {content} d h.
Arguments values {value} _.
Arguments loadingInProgress {value} _.
Arguments suspendChange {value} _.
Arguments numSuspendedChanges {value} _.
Arguments storagePath {value} _.
Arguments hasListener {value} _.
Arguments set_values {value} p m.
Arguments set_loadingInProgress {value} p b.
Arguments set_suspendChange {value} p b.
Arguments set_numSuspendedChanges {value} p n.
Arguments prefs {value content} _.
Arguments disk {value content} _.
Arguments timers {value content} _.
Arguments trace {value content} _.
Arguments with_prefs {value content} w p.
Arguments with_disk {value content} w d.
Arguments with_timers {value content} w n.
Arguments emit {value content} w ev.
Arguments resetSuspend {value content} w.
Arguments encodeAndSync {value content} encode w file.
Arguments saveToFile {value content} emptyContent encode Dir w path.
Arguments save {value content} emptyContent encode Dir w.
Arguments listenerLocked {value} p.
Arguments changeListener {value content} emptyContent encode Dir w.
Arguments FireChange {value content} emptyContent encode Dir w.
Arguments resetFire {value content} emptyContent encode Dir w.
Arguments loadFromFile {value content} emptyContent encode decode Dir w path.
Arguments load {value content} emptyContent encode decode Dir w.
Arguments saveCount {value content} w.
Arguments writeCount {value content} w.
Arguments notify {value content} emptyContent encode Dir n w.

(** ** A concrete instance for the examples

    Values of the kinds the store keeps, and a codec that writes the map
    out as the list of its members. *)
Inductive jvalue :=
| JString (s : string)
| JNumber (z : Z)
| JBool (b : bool).

Definition document := list (string * jvalue).
Definition docEncode (m : gmap string jvalue) : option document :=
  Some (map_to_list m).
Definition docDecode (d : document) : option (gmap string jvalue) :=
  Some (list_to_map d).
Definition cfgDir (path : string) : string := "/cfg".
Definition cfgPath : string := "/cfg/preferences.json".

Definition noError : string -> option error := fun _ => None.

(** A disk with no file on it, on which every call succeeds. *)
Definition emptyDisk : fs document :=
  {| files := ∅; dirs := ∅; mkdirAllErr := noError; createErr := noError;
     openErr := noError; writeErr := noError; syncErr := noError;
     closeErr := noError |}.

(** The same disk, except that directories cannot be created. *)
Definition readOnlyDisk : fs document :=
  {| files := ∅; dirs := ∅; mkdirAllErr := fun _ => Some ErrPermission;
     createErr := noError; openErr := noError; writeErr := noError;
     syncErr := noError; closeErr := noError |}.

Definition demoValues : gmap string jvalue :=
  <["name" := JString "fyne"]> (<["scale" := JNumber 2]> ∅).

Definition demoPrefs : preferences jvalue :=
  set_values (newPreferences jvalue "io.fyne.demo" cfgPath) demoValues.

Definition demoWorld : world jvalue document :=
  {| prefs := demoPrefs; disk := emptyDisk; timers := 0; trace := [] |}.

(** The store while a load is in progress, outside a suspend window. *)
Definition loadingWorld : world jvalue document :=
  with_prefs demoWorld (set_loadingInProgress demoPrefs true).

(** The store inside a suspend window. *)
Definition suspendedWorld : world jvalue document :=
  with_prefs demoWorld (set_suspendChange demoPrefs true).

(** A new store on a disk where directories cannot be created. *)
Definition readOnlyWorld : world jvalue document :=
  {| prefs := newPreferences jvalue "io.fyne.demo" cfgPath;
     disk := readOnlyDisk; timers := 0; trace := [] |}.

(** A new store on the empty disk. *)
Definition newWorld : world jvalue document :=
  {| prefs := newPreferences jvalue "io.fyne.demo" cfgPath;
     disk := emptyDisk; timers := 0; trace := [] |}.

(** A new store whose file cannot be opened for lack of permission. *)
Definition deniedDisk : fs document :=
  {| files := ∅; dirs := ∅; mkdirAllErr := noError; createErr := noError;
     openErr := fun _ => Some ErrPermission; writeErr := noError;
     syncErr := noError; closeErr := noError |}.

Definition deniedWorld : world jvalue document :=
  {| prefs := newPreferences jvalue "io.fyne.demo" cfgPath;
     disk := deniedDisk; timers := 0; trace := [] |}.

(** ** More instances for the examples *)

(** An encoder with no encoding for the value under ["scale"], and a
    decoder that rejects the empty document. *)
Definition pickyEncode (m : gmap string jvalue) : option document :=
  match m !! "scale" with
  | Some _ => None
  | None => Some (map_to_list m)
  end.
Definition strictDecode (d : document) : option (gmap string jvalue) :=
  match d with
  | [] => None
  | _ => Some (list_to_map d)
  end.

(** Disks on which [os.Create] fails, with a plain error and with an
    [IsExist] error. *)
Definition createDeniedDisk : fs document :=
  {| files := {[cfgPath := [("name", JString "old")]]}; dirs := ∅;
     mkdirAllErr := noError; createErr := fun _ => Some ErrPermission;
     openErr := noError; writeErr := noError; syncErr := noError;
     closeErr := noError |}.
Definition createExistDisk : fs document :=
  {| files := {[cfgPath := [("name", JString "old")]]}; dirs := ∅;
     mkdirAllErr := noError; createErr := fun _ => Some ErrExist;
     openErr := noError; writeErr := noError; syncErr := noError;
     closeErr := noError |}.

(** A disk that holds an earlier preferences file, and one that holds an
    empty file. *)
Definition oldDisk : fs document :=
  {| files := {[cfgPath := [("name", JString "old")]]}; dirs := {["/cfg"]};
     mkdirAllErr := noError; createErr := noError; openErr := noError;
     writeErr := noError; syncErr := noError; closeErr := noError |}.
Definition emptyFileDisk : fs document :=
  {| files := {[cfgPath := []]}; dirs := {["/cfg"]};
     mkdirAllErr := noError; createErr := noError; openErr := noError;
     writeErr := noError; syncErr := noError; closeErr := noError |}.

Definition onDisk (d : fs document) : world jvalue document :=
  {| prefs := demoPrefs; disk := d; timers := 0; trace := [] |}.

(** The store inside a suspend window, its reset timer asleep, on the disk
    with the earlier file. *)
Definition windowWorld : world jvalue document :=
  {| prefs := set_suspendChange demoPrefs true; disk := oldDisk;
     timers := 1; trace := [] |}.

(** The store of an app without unique ID. *)
Definition anonymousWorld : world jvalue document :=
  {| prefs := set_values (newPreferences jvalue "" cfgPath) demoValues;
     disk := emptyDisk; timers := 0; trace := [] |}.

(** ** encoding/json on the values the store keeps

    The dynamic values behind [interface{}] that the preferences setters
    store: strings, booleans, [int]s, [float64]s, and lists of these. *)
Definition float64 := spec_float.
Definition f64 (z : Z) : float64 := binary_normalize 53 1024 z 0 false.

#[warnings="-register-all"]
Inductive govalue :=
| GString (s : string)
| GBool (b : bool)
| GInt (z : Z)
| GFloat (f : float64)
| GList (l : list govalue).

(** A JSON value; a number is the literal of an integer or the shortest
    literal that reads back as a given [float64]. *)
#[warnings="-register-all"]
Inductive jsvalue :=
| JsString (s : string)
| JsBool (b : bool)
| JsInt (z : Z)
| JsFloat (f : float64)
| JsArray (l : list jsvalue).

(** [json.Marshal] of one value: NaN and the infinities have no encoding. *)
Fixpoint jsonOf (v : govalue) : option jsvalue :=
  match v with
  | GString s => Some (JsString s)
  | GBool b => Some (JsBool b)
  | GInt z => Some (JsInt z)
  | GFloat f =>
      match f with
      | S754_nan | S754_infinity _ => None
      | _ => Some (JsFloat f)
      end
  | GList l =>
      match (fix all (l : list govalue) : option (list jsvalue) :=
               match l with
               | [] => Some []
               | x :: r =>
                   match jsonOf x, all r with
                   | Some a, Some b => Some (a :: b)
                   | _, _ => None
                   end
               end) l with
      | Some js => Some (JsArray js)
      | None => None
      end
  end.

(** [json.Unmarshal] into an [interface{}]: every JSON number is stored as
    a [float64], every array as a list of such values. *)
Fixpoint valueOf (j : jsvalue) : govalue :=
  match j with
  | JsString s => GString s
  | JsBool b => GBool b
  | JsInt z => GFloat (f64 z)
  | JsFloat f => GFloat f
  | JsArray l => GList (List.map valueOf l)
  end.

(** A JSON document: the members of the top-level object. *)
Definition jsdocument := list (string * jsvalue).

Fixpoint jsonMembers (l : list (string * govalue)) : option jsdocument :=
  match l with
  | [] => Some []
  | (k, v) :: r =>
      match jsonOf v, jsonMembers r with
      | Some j, Some d => Some ((k, j) :: d)
      | _, _ => None
      end
  end.

Definition jsonEncode (m : gmap string govalue) : option jsdocument :=
  jsonMembers (map_to_list m).
Definition jsonDecode (d : jsdocument) : option (gmap string govalue) :=
  Some (list_to_map (List.map (fun kj => (fst kj, valueOf (snd kj))) d)).

(** A map of values JSON reads back as written, and a map with an [int]. *)
Definition nativeValues : gmap string govalue :=
  <["name" := GString "fyne"]> (<["scale" := GFloat (f64 2)]> ∅).
Definition intValues : gmap string govalue :=
  <["name" := GString "fyne"]> (<["scale" := GInt 2]> ∅).

Definition jsonDisk : fs jsdocument :=
  {| files := ∅; dirs := ∅; mkdirAllErr := noError; createErr := noError;
     openErr := noError; writeErr := noError; syncErr := noError;
     closeErr := noError |}.

Definition holding (m : gmap string govalue) : world govalue jsdocument :=
  {| prefs := set_values (newPreferences govalue "io.fyne.demo" cfgPath) m;
     disk := jsonDisk; timers := 0; trace := [] |}.

End Prefs.

(* ===================================================================== *)
(** * Properties of theme/color.go *)
(* ===================================================================== *)

Section ThemeFacts.

Import Theme.

Context {Widget : Type}.
Implicit Types (e : env Widget) (n : ThemeColorName) (v : ThemeVariant).

(** [safeColorLookup] passes a defined colour through, silently. *)
Lemma safeColorLookup_defined e n v c :
  Color_of (Current e) n v = Some c ->
  safeColorLookup e n v = (Some c, []).
Proof. unfold safeColorLookup. intros ->. reflexivity. Qed.

(** [safeColorLookup] maps an undefined colour to the fallback and logs. *)
Lemma safeColorLookup_undefined e n v :
  Color_of (Current e) n v = None ->
  safeColorLookup e n v =
    (Some (fallbackColor e), ["Loaded theme returned nil color"%string]).
Proof. unfold safeColorLookup. intros ->. reflexivity. Qed.

(** Whatever the theme answers, [safeColorLookup] does not return nil. *)
Lemma safeColorLookup_not_nil e n v : fst (safeColorLookup e n v) <> None.
Proof.
  unfold safeColorLookup.
  destruct (Color_of (Current e) n v) eqn:E; simpl; congruence.
Qed.

Lemma safeAccessors_not_nil e :
  Forall (fun f => fst (f e) <> None) safeAccessors.
Proof.
  unfold safeAccessors.
  repeat (constructor; [apply safeColorLookup_not_nil |]).
  constructor.
Qed.

Lemma Color_not_nil e n : fst (Color e n) <> None.
Proof. apply safeColorLookup_not_nil. Qed.

(** The three accessors that call the theme directly return its answer
    as it is, nil included, and log nothing. *)
Lemma direct_accessors_pass_through e :
  HeaderBackgroundColor e
    = (Color_of (Current e) ColorNameHeaderBackground (currentVariant e), []) /\
  InputBackgroundColor e
    = (Color_of (Current e) ColorNameInputBackground (currentVariant e), []) /\
  InputBorderColor e
    = (Color_of (Current e) ColorNameInputBorder (currentVariant e), []).
Proof. repeat split. Qed.

End ThemeFacts.

(** C6, at the failing input: with a theme that leaves the colour
    undefined, the accessors [HeaderBackgroundColor], [InputBackgroundColor],
    [InputBorderColor] and [ColorForWidget] return nil and log nothing, where
    a sibling such as [BackgroundColor] returns the fallback colour and logs
    the error. *)
Theorem direct_accessors_return_nil :
  Theme.HeaderBackgroundColor Theme.undefinedEnv = (None, []) /\
  Theme.InputBackgroundColor Theme.undefinedEnv = (None, []) /\
  Theme.InputBorderColor Theme.undefinedEnv = (None, []) /\
  Theme.ColorForWidget Theme.undefinedEnv Theme.ColorNamePrimary tt = (None, []) /\
  Theme.BackgroundColor Theme.undefinedEnv
    = (Some (Theme.fallbackColor Theme.undefinedEnv),
       ["Loaded theme returned nil color"%string]).
Proof. repeat split. Qed.

Lemma eqb_switchNames (name : string) :
  name ∉ Theme.switchNames ->
  String.eqb name Theme.ColorRed = false /\
  String.eqb name Theme.ColorOrange = false /\
  String.eqb name Theme.ColorYellow = false /\
  String.eqb name Theme.ColorGreen = false /\
  String.eqb name Theme.ColorPurple = false /\
  String.eqb name Theme.ColorBrown = false /\
  String.eqb name Theme.ColorGray = false.
Proof.
  intros H.
  repeat split; apply String.eqb_neq; intros ->; apply H;
    unfold Theme.switchNames; set_solver.
Qed.

(** The named-colour functions are total and never nil. *)
Lemma PrimaryColorNamed_not_nil (name : string) :
  Theme.PrimaryColorNamed name <> None /\
  Theme.PrimaryForegroundColorNamed name <> None.
Proof.
  unfold Theme.PrimaryColorNamed, Theme.PrimaryForegroundColorNamed.
  split; repeat (case String.eqb; [discriminate |]); discriminate.
Qed.

(** C10: [PrimaryColorNamed] and [PrimaryForegroundColorNamed] return a
    colour, never nil, for every string; for every string that is none of
    red, orange, yellow, green, purple, brown and gray the first returns
    blue's value NRGBA{0x29, 0x6f, 0xf6, 0xff} and the second blue's "on"
    value [colorLightBackground]. *)
Theorem PrimaryColorNamed_unrecognised (name : string) :
  (Theme.PrimaryColorNamed name <> None /\
   Theme.PrimaryForegroundColorNamed name <> None) /\
  (name ∉ Theme.switchNames ->
   Theme.PrimaryColorNamed name = Some (Theme.mkNRGBA 0x29 0x6f 0xf6 0xff) /\
   Theme.PrimaryForegroundColorNamed name = Some Theme.colorLightBackground).
Proof.
  split; [apply PrimaryColorNamed_not_nil |].
  intros H. apply eqb_switchNames in H.
  destruct H as (H1 & H2 & H3 & H4 & H5 & H6 & H7).
  unfold Theme.PrimaryColorNamed, Theme.PrimaryForegroundColorNamed.
  rewrite H1, H2, H3, H4, H5, H6, H7. split; reflexivity.
Qed.

Lemma PrimaryColorNamed_unrecognised_witness :
  ("teal"%string ∉ Theme.switchNames) /\
  Theme.PrimaryColorNamed "teal" = Some (Theme.mkNRGBA 0x29 0x6f 0xf6 0xff) /\
  Theme.PrimaryForegroundColorNamed "teal" = Some Theme.colorLightBackground.
Proof.
  assert (H : ("teal"%string) ∉ Theme.switchNames)
    by (apply (bool_decide_unpack _); vm_compute; exact I).
  split; [exact H |].
  apply (proj2 (PrimaryColorNamed_unrecognised "teal") H).
Defined.

(* ===================================================================== *)
(** * Properties of layout/formlayout.go *)
(* ===================================================================== *)

Section LayoutFacts.

Import Layout.

Variables padding innerPadding : float32.

Implicit Types (objects rest out : list CanvasObject) (table : list tableRow).

(** ** Lists of even length, two objects at a time *)

Lemma even_length_cons2 (a b : CanvasObject) rest :
  (length (a :: b :: rest) mod 2 = length rest mod 2)%nat.
Proof.
  simpl length. replace (S (S (length rest))) with (length rest + 1 * 2)%nat by lia.
  apply Nat.Div0.mod_add.
Qed.

Lemma half_SS (n : nat) : (S (S n) / 2 = S (n / 2))%nat.
Proof.
  replace (S (S n)) with (n + 1 * 2)%nat by lia.
  rewrite Nat.div_add by lia. lia.
Qed.

Lemma rows_ind (P : list CanvasObject -> Prop) :
  P [] ->
  (forall l c rest, (length rest mod 2 = 0)%nat -> P rest -> P (l :: c :: rest)) ->
  forall objects, (length objects mod 2 = 0)%nat -> P objects.
Proof.
  intros Hnil Hstep objects.
  assert (H : ((length objects mod 2 = 0)%nat -> P objects) /\
              (forall o, (length (o :: objects) mod 2 = 0)%nat -> P (o :: objects))).
  { induction objects as [|a objects [IH1 IH2]].
    - split; [intros _; exact Hnil | intros o Ho; discriminate Ho].
    - split; [apply IH2 |].
      intros o Ho. rewrite even_length_cons2 in Ho. auto. }
  exact (proj1 H).
Qed.

Lemma shownRows_even objects :
  (length objects mod 2 = 0)%nat -> (length (shownRows objects) mod 2 = 0)%nat.
Proof.
  revert objects. apply rows_ind; [reflexivity |].
  intros l c rest Hrest IH. cbn [shownRows].
  destruct (negb (obj_Visible l) && negb (obj_Visible c)); [exact IH |].
  rewrite even_length_cons2. exact IH.
Qed.

Lemma shownRows_idemp objects :
  (length objects mod 2 = 0)%nat -> shownRows (shownRows objects) = shownRows objects.
Proof.
  revert objects. apply rows_ind; [reflexivity |].
  intros l c rest Hrest IH. simpl.
  destruct (negb (obj_Visible l) && negb (obj_Visible c)) eqn:E; [exact IH |].
  simpl. rewrite E, IH. reflexivity.
Qed.

(** ** countRows *)

Lemma countRows_loop_cons2 (l c : CanvasObject) rest (count : nat) :
  countRows_loop (l :: c :: rest) count
    = if negb (obj_Visible l) && negb (obj_Visible c)
      then countRows_loop rest count
      else countRows_loop rest (S count).
Proof. reflexivity. Qed.

Lemma countRows_loop_even objects :
  (length objects mod 2 = 0)%nat ->
  forall count : nat,
    countRows_loop objects count
      = Some (count + length (shownRows objects) / 2)%nat.
Proof.
  revert objects.
  apply (rows_ind (fun objects => forall count : nat,
    countRows_loop objects count = Some (count + length (shownRows objects) / 2)%nat)).
  - intros count. simpl. f_equal. lia.
  - intros l c rest Hrest IH count. cbn [countRows_loop shownRows].
    destruct (negb (obj_Visible l) && negb (obj_Visible c)).
    + apply IH.
    + rewrite IH. cbn [length]. rewrite half_SS. f_equal. lia.
Qed.

Lemma countRows_even objects :
  (length objects mod 2 = 0)%nat ->
  countRows objects = Some (length (shownRows objects) / 2)%nat.
Proof. intros H. unfold countRows. rewrite countRows_loop_even by exact H. reflexivity. Qed.

Lemma countRows_shownRows objects :
  (length objects mod 2 = 0)%nat ->
  countRows (shownRows objects) = countRows objects.
Proof.
  intros H. rewrite (countRows_even objects H).
  rewrite (countRows_even _ (shownRows_even _ H)), (shownRows_idemp _ H).
  reflexivity.
Qed.

(** On a list of odd length the only index out of range is the one after
    the last object, read when that object is invisible. *)
Lemma countRows_loop_odd objects (o : CanvasObject) :
  (length objects mod 2 = 0)%nat ->
  forall count : nat,
    countRows_loop (objects ++ [o]) count
      = if obj_Visible o
        then Some (S (count + length (shownRows objects) / 2))%nat
        else None.
Proof.
  revert objects.
  apply (rows_ind (fun objects => forall count : nat,
    countRows_loop (objects ++ [o]) count
      = if obj_Visible o
        then Some (S (count + length (shownRows objects) / 2))%nat
        else None)).
  - intros count. simpl. destruct (obj_Visible o); simpl; [f_equal; lia | reflexivity].
  - intros l c rest Hrest IH count.
    change ((l :: c :: rest) ++ [o]) with (l :: c :: (rest ++ [o])).
    rewrite countRows_loop_cons2. cbn [shownRows].
    destruct (negb (obj_Visible l) && negb (obj_Visible c)).
    + apply IH.
    + rewrite IH. destruct (obj_Visible o); [| reflexivity].
      cbn [length]. rewrite half_SS. f_equal. lia.
Qed.

(** ** tableCellsSize *)

Lemma tableCells_loop_done rest (rows row : nat) (lw cw : float32) table :
  (row <? rows)%nat = false ->
  tableCells_loop innerPadding rest rows row lw cw table = Some (lw, cw, table).
Proof. intros H. destruct rest; simpl; rewrite H; reflexivity. Qed.

Lemma tableCells_loop_cons2 (l c : CanvasObject) rest (rows row : nat)
    (lw cw : float32) table :
  (row <? rows)%nat = true ->
  tableCells_loop innerPadding (l :: c :: rest) rows row lw cw table
    = if negb (obj_Visible l) && negb (obj_Visible c)
      then tableCells_loop innerPadding rest rows row lw cw table
      else tableCells_loop innerPadding rest rows (S row)
             (fyne_Max lw (Width (fst (rowCells innerPadding l c))))
             (fyne_Max cw (Width (snd (rowCells innerPadding l c))))
             (<[row := rowCells innerPadding l c]> table).
Proof. intros H. simpl. rewrite H. reflexivity. Qed.

(** The loop does not look at rows whose two cells are invisible. *)
Lemma tableCells_loop_shownRows objects :
  (length objects mod 2 = 0)%nat ->
  forall (rows row : nat) (lw cw : float32) table,
    tableCells_loop innerPadding objects rows row lw cw table
      = tableCells_loop innerPadding (shownRows objects) rows row lw cw table.
Proof.
  revert objects.
  apply (rows_ind (fun objects => forall (rows row : nat) (lw cw : float32) table,
    tableCells_loop innerPadding objects rows row lw cw table
      = tableCells_loop innerPadding (shownRows objects) rows row lw cw table)).
  - reflexivity.
  - intros l c rest Hrest IH rows row lw cw table.
    destruct (row <? rows)%nat eqn:Hrow.
    + rewrite tableCells_loop_cons2 by exact Hrow. cbn [shownRows].
      destruct (negb (obj_Visible l) && negb (obj_Visible c)) eqn:E.
      * apply IH.
      * rewrite tableCells_loop_cons2 by exact Hrow. rewrite E. apply IH.
    + rewrite !tableCells_loop_done by exact Hrow. reflexivity.
Qed.

(** The loop finds the [rows] rows it is after, without leaving the list,
    and returns a table of the length it was given. *)
Lemma tableCells_loop_total objects :
  (length objects mod 2 = 0)%nat ->
  forall (rows row : nat) (lw cw : float32) table,
    (rows <= row + length (shownRows objects) / 2)%nat ->
    exists lw' cw' table',
      tableCells_loop innerPadding objects rows row lw cw table
        = Some (lw', cw', table') /\
      length table' = length table.
Proof.
  revert objects.
  apply (rows_ind (fun objects => forall (rows row : nat) (lw cw : float32) table,
    (rows <= row + length (shownRows objects) / 2)%nat ->
    exists lw' cw' table',
      tableCells_loop innerPadding objects rows row lw cw table
        = Some (lw', cw', table') /\
      length table' = length table)).
  - intros rows row lw cw table Hle. cbn [shownRows length] in Hle.
    exists lw, cw, table. split; [| reflexivity].
    apply tableCells_loop_done. apply Nat.ltb_ge.
    change (0 / 2)%nat with 0%nat in Hle. lia.
  - intros l c rest Hrest IH rows row lw cw table Hle.
    destruct (row <? rows)%nat eqn:Hrow.
    + rewrite tableCells_loop_cons2 by exact Hrow. cbn [shownRows] in Hle.
      destruct (negb (obj_Visible l) && negb (obj_Visible c)).
      * apply IH. exact Hle.
      * cbn [length] in Hle. rewrite half_SS in Hle.
        destruct (IH rows (S row)
                    (fyne_Max lw (Width (fst (rowCells innerPadding l c))))
                    (fyne_Max cw (Width (snd (rowCells innerPadding l c))))
                    (<[row := rowCells innerPadding l c]> table))
          as (lw' & cw' & table' & Heq & Hlen); [lia |].
        exists lw', cw', table'. split; [exact Heq |].
        rewrite Hlen. apply length_insert.
    + exists lw, cw, table. split; [| reflexivity].
      apply tableCells_loop_done. exact Hrow.
Qed.

Lemma even_mod_test objects :
  (length objects mod 2 = 0)%nat ->
  negb (length objects mod formLayoutCols =? 0)%nat = false.
Proof. intros H. unfold formLayoutCols. rewrite H. reflexivity. Qed.

(** [tableCellsSize] returns on every list of even length, with one table
    row per shown row. *)
Lemma tableCellsSize_total objects (containerWidth : float32) :
  (length objects mod 2 = 0)%nat ->
  exists lw cw table,
    tableCellsSize padding innerPadding objects containerWidth = Some (lw, cw, table) /\
    length table = (length (shownRows objects) / 2)%nat.
Proof.
  intros H. unfold tableCellsSize.
  rewrite (countRows_even objects H), (even_mod_test objects H).
  destruct (tableCells_loop_total objects H
              (length (shownRows objects) / 2)%nat 0%nat (f32 0) (f32 0)
              (replicate (length (shownRows objects) / 2) zeroRow))
    as (lw & cw & table & Heq & Hlen); [lia |].
  rewrite Heq. eexists _, _, _. split; [reflexivity |].
  rewrite Hlen. apply length_replicate.
Qed.

Lemma tableCellsSize_shownRows objects (containerWidth : float32) :
  (length objects mod 2 = 0)%nat ->
  tableCellsSize padding innerPadding objects containerWidth
    = tableCellsSize padding innerPadding (shownRows objects) containerWidth.
Proof.
  intros H. unfold tableCellsSize.
  rewrite (countRows_shownRows objects H).
  rewrite (even_mod_test objects H), (even_mod_test _ (shownRows_even _ H)).
  destruct (countRows objects); [| reflexivity].
  rewrite (tableCells_loop_shownRows objects H). reflexivity.
Qed.

(** On a list of odd length whose last object is visible the size
    computation returns zero widths and a table of zero cells. *)
Lemma tableCellsSize_odd objects (o : CanvasObject) (containerWidth : float32) :
  (length objects mod 2 = 0)%nat ->
  tableCellsSize padding innerPadding (objects ++ [o]) containerWidth
    = if obj_Visible o
      then Some (f32 0, f32 0,
                 replicate (S (length (shownRows objects) / 2)) zeroRow)
      else None.
Proof.
  intros H. unfold tableCellsSize, countRows.
  rewrite (countRows_loop_odd objects o H).
  destruct (obj_Visible o); [| reflexivity].
  replace (length (objects ++ [o]) mod formLayoutCols)%nat with 1%nat; [reflexivity |].
  rewrite length_app. cbn [length]. unfold formLayoutCols.
  rewrite <- Nat.Div0.add_mod_idemp_l, H. reflexivity.
Qed.

(** ** MinSize *)

Lemma MinSize_shownRows objects :
  (length objects mod 2 = 0)%nat ->
  MinSize padding innerPadding objects
    = MinSize padding innerPadding (shownRows objects).
Proof.
  intros H. unfold MinSize.
  rewrite (tableCellsSize_shownRows objects (f32 0) H). reflexivity.
Qed.

Lemma MinSize_total objects :
  (length objects mod 2 = 0)%nat ->
  is_Some (MinSize padding innerPadding objects).
Proof.
  intros H. unfold MinSize.
  destruct (tableCellsSize_total objects (f32 0) H) as (lw & cw & table & -> & _).
  destruct (length table =? 0)%nat; eexists; reflexivity.
Qed.

(** ** Layout *)

Lemma placeLabel_Visible (o : CanvasObject) (lw y : float32) (r : tableRow) :
  obj_Visible (placeLabel innerPadding o lw y r) = obj_Visible o.
Proof. unfold placeLabel. destruct (isText o); reflexivity. Qed.

Lemma placeContent_Visible (o : CanvasObject) (lw cw y : float32) (r : tableRow) :
  obj_Visible (placeContent padding innerPadding o lw cw y r) = obj_Visible o.
Proof. unfold placeContent. destruct (isText o); reflexivity. Qed.

Lemma rowStart_in_range table (row : nat) (y : float32) :
  (row < length table)%nat ->
  exists y' r, rowStart padding table row y = Some (y', r).
Proof.
  intros Hlt. unfold rowStart, tableRow in *.
  destruct (lookup_lt_is_Some_2 table row Hlt) as [r Hr].
  destruct (0 <? row)%nat.
  - destruct (lookup_lt_is_Some_2 table (row - 1)%nat ltac:(lia)) as [prev Hprev].
    rewrite Hprev, Hr. eauto.
  - rewrite Hr. eauto.
Qed.

Lemma hiddenRowAt_cons2 (l c : CanvasObject) rest (i : nat) :
  hiddenRowAt (l :: c :: rest) (S (S i)) -> hiddenRowAt rest i.
Proof.
  intros [Hi H]. split; [| exact H].
  replace (S (S i)) with (i + 1 * 2)%nat in Hi by lia.
  rewrite Nat.Div0.mod_add in Hi. exact Hi.
Qed.

Lemma hiddenRowAt_head (l c : CanvasObject) rest :
  hiddenRowAt (l :: c :: rest) 0 ->
  negb (obj_Visible l) && negb (obj_Visible c) = true.
Proof.
  intros [_ (l' & c' & Hl & Hc & Hvl & Hvc)].
  injection Hl as <-. injection Hc as <-. rewrite Hvl, Hvc. reflexivity.
Qed.

(** The positioning loop returns on every list of even length whose shown
    rows fit the table; it leaves the rows with two invisible cells as they
    are, and places the other rows exactly as it places them when the
    invisible rows are not in the list. *)
Lemma Layout_loop_shownRows (lw cw : float32) table objects :
  (length objects mod 2 = 0)%nat ->
  forall (row : nat) (y : float32),
    (row + length (shownRows objects) / 2 <= length table)%nat ->
    exists out,
      Layout_loop padding innerPadding lw cw table objects row y = Some out /\
      Layout_loop padding innerPadding lw cw table (shownRows objects) row y
        = Some (shownRows out) /\
      (forall i, hiddenRowAt objects i ->
         out !! i = objects !! i /\ out !! S i = objects !! S i).
Proof.
  revert objects.
  apply (rows_ind (fun objects => forall (row : nat) (y : float32),
    (row + length (shownRows objects) / 2 <= length table)%nat ->
    exists out,
      Layout_loop padding innerPadding lw cw table objects row y = Some out /\
      Layout_loop padding innerPadding lw cw table (shownRows objects) row y
        = Some (shownRows out) /\
      (forall i, hiddenRowAt objects i ->
         out !! i = objects !! i /\ out !! S i = objects !! S i))).
  - intros row y _. exists []. repeat split; try reflexivity.
  - intros l c rest Hrest IH row y Hle.
    cbn [shownRows Layout_loop] in *.
    destruct (negb (obj_Visible l) && negb (obj_Visible c)) eqn:E.
    + destruct (IH row y Hle) as (out & Hout & Hshown & Hhid).
      exists (l :: c :: out). rewrite Hout. cbn [shownRows]. rewrite E.
      split; [reflexivity |]. split; [exact Hshown |].
      intros [|[|i]] Hi.
      * split; reflexivity.
      * destruct Hi as [Hi _]. discriminate Hi.
      * apply (Hhid i). eapply hiddenRowAt_cons2. exact Hi.
    + cbn [length] in Hle. rewrite half_SS in Hle.
      destruct (rowStart_in_range table row y ltac:(lia)) as (y' & r & Hstart).
      destruct (IH (S row) y' ltac:(lia)) as (out & Hout & Hshown & Hhid).
      exists (placeLabel innerPadding l lw y' r
              :: placeContent padding innerPadding c lw cw y' r :: out).
      cbn [Layout_loop]. rewrite E, Hstart, Hout, Hshown.
      cbn [shownRows]. rewrite placeLabel_Visible, placeContent_Visible, E.
      split; [reflexivity |]. split; [reflexivity |].
      intros [|[|i]] Hi.
      * apply hiddenRowAt_head in Hi. congruence.
      * destruct Hi as [Hi _]. discriminate Hi.
      * apply (Hhid i). eapply hiddenRowAt_cons2. exact Hi.
Qed.

(** C9: on a list of even length, the rows whose label and content are
    both invisible take no part in the size computation: the row count, the
    result of [tableCellsSize] (column widths and table) and [MinSize] are
    those of the list without these rows.  They take no part in positioning
    either: [Layout] returns, leaves both objects of such a row as they are,
    and places the objects of the other rows exactly where it places them
    when the invisible rows are not in the list. *)
Theorem hidden_rows_excluded objects :
  (length objects mod 2 = 0)%nat ->
  countRows objects = Some (length (shownRows objects) / 2)%nat /\
  countRows objects = countRows (shownRows objects) /\
  (forall containerWidth,
     is_Some (tableCellsSize padding innerPadding objects containerWidth) /\
     tableCellsSize padding innerPadding objects containerWidth
       = tableCellsSize padding innerPadding (shownRows objects) containerWidth) /\
  is_Some (MinSize padding innerPadding objects) /\
  MinSize padding innerPadding objects
    = MinSize padding innerPadding (shownRows objects) /\
  (forall size, exists out,
     Layout padding innerPadding objects size = Some out /\
     Layout padding innerPadding (shownRows objects) size = Some (shownRows out) /\
     (forall i, hiddenRowAt objects i ->
        out !! i = objects !! i /\ out !! S i = objects !! S i)).
Proof.
  intros H.
  split; [apply countRows_even, H |].
  split; [symmetry; apply countRows_shownRows, H |].
  split.
  { intros w. split; [| apply tableCellsSize_shownRows, H].
    destruct (tableCellsSize_total objects w H) as (lw & cw & table & -> & _).
    eexists; reflexivity. }
  split; [apply MinSize_total, H |].
  split; [apply MinSize_shownRows, H |].
  intros size. unfold Layout.
  rewrite <- (tableCellsSize_shownRows objects (Width size) H).
  destruct (tableCellsSize_total objects (Width size) H)
    as (lw & cw & table & -> & Hlen).
  apply Layout_loop_shownRows; [exact H | lia].
Qed.

(** The minimum height of a form of two shown rows: the two row heights,
    each the larger of its label's and its content's minimum height, and
    one padding. *)
Lemma MinSize_two_rows (l1 c1 l2 c2 : CanvasObject) :
  obj_Visible l1 || obj_Visible c1 = true ->
  obj_Visible l2 || obj_Visible c2 = true ->
  exists lw cw r1 r2 s,
    tableCellsSize padding innerPadding [l1; c1; l2; c2] (f32 0)
      = Some (lw, cw, [r1; r2]) /\
    Height (fst r1)
      = fyne_Max (Height (obj_MinSize l1)) (Height (obj_MinSize c1)) /\
    Height (fst r2)
      = fyne_Max (Height (obj_MinSize l2)) (Height (obj_MinSize c2)) /\
    Height (snd r1) = Height (fst r1) /\
    Height (snd r2) = Height (fst r2) /\
    MinSize padding innerPadding [l1; c1; l2; c2] = Some s /\
    Height s
      = fadd (fadd (fadd (f32 0) (Height (fst r1))) (Height (fst r2))) padding.
Proof.
  intros H1 H2.
  assert (E1 : negb (obj_Visible l1) && negb (obj_Visible c1) = false)
    by (destruct (obj_Visible l1), (obj_Visible c1); (discriminate || reflexivity)).
  assert (E2 : negb (obj_Visible l2) && negb (obj_Visible c2) = false)
    by (destruct (obj_Visible l2), (obj_Visible c2); (discriminate || reflexivity)).
  assert (Hl : forall o, Height (labelCellOf innerPadding o) = Height (obj_MinSize o))
    by (intros o; unfold labelCellOf; destruct (isText o); reflexivity).
  unfold MinSize, tableCellsSize, countRows.
  cbn [countRows_loop]. rewrite E1, E2.
  cbn [length Nat.modulo Nat.divmod formLayoutCols fst snd Nat.eqb negb replicate].
  cbn [tableCells_loop Nat.ltb Nat.leb]. rewrite E1, E2.
  eexists _, _, _, _, _.
  split; [reflexivity |].
  split; [cbn; rewrite Hl; reflexivity |].
  split; [cbn; rewrite Hl; reflexivity |].
  repeat (split; [reflexivity |]). reflexivity.
Qed.

(** C5, amended: for a form of two shown rows whose (label, content)
    minimum heights are (10, 20) and (30, 5), each row's height is the
    larger of the pair, 20 and 30, and [MinSize] returns the height
    20 + 30 + padding. *)
Theorem MinSize_heights_example (l1 c1 l2 c2 : CanvasObject) :
  Height (obj_MinSize l1) = f32 10 -> Height (obj_MinSize c1) = f32 20 ->
  Height (obj_MinSize l2) = f32 30 -> Height (obj_MinSize c2) = f32 5 ->
  obj_Visible l1 || obj_Visible c1 = true ->
  obj_Visible l2 || obj_Visible c2 = true ->
  exists lw cw r1 r2 s,
    tableCellsSize padding innerPadding [l1; c1; l2; c2] (f32 0)
      = Some (lw, cw, [r1; r2]) /\
    Height (fst r1) = f32 20 /\ Height (snd r1) = f32 20 /\
    Height (fst r2) = f32 30 /\ Height (snd r2) = f32 30 /\
    MinSize padding innerPadding [l1; c1; l2; c2] = Some s /\
    Height s = fadd (fadd (f32 20) (f32 30)) padding.
Proof.
  intros Hl1 Hc1 Hl2 Hc2 H1 H2.
  destruct (MinSize_two_rows l1 c1 l2 c2 H1 H2)
    as (lw & cw & r1 & r2 & s & Ht & Hr1 & Hr2 & Hs1 & Hs2 & Hm & Hh).
  assert (M1 : fyne_Max (f32 10) (f32 20) = f32 20) by reflexivity.
  assert (M2 : fyne_Max (f32 30) (f32 5) = f32 30) by reflexivity.
  assert (A : fadd (f32 0) (f32 20) = f32 20) by reflexivity.
  rewrite Hl1, Hc1, M1 in Hr1. rewrite Hl2, Hc2, M2 in Hr2.
  rewrite Hr1 in Hs1. rewrite Hr2 in Hs2. rewrite Hr1, Hr2, A in Hh.
  exists lw, cw, r1, r2, s. repeat split; assumption.
Qed.

End LayoutFacts.

Lemma hidden_rows_excluded_witness :
  (length Layout.form3 mod 2 = 0)%nat /\
  Layout.countRows Layout.form3 = Some 2%nat /\
  Layout.MinSize (Layout.f32 4) (Layout.f32 8) Layout.form3
    = Layout.MinSize (Layout.f32 4) (Layout.f32 8) (Layout.shownRows Layout.form3).
Proof.
  assert (H : (length Layout.form3 mod 2 = 0)%nat) by reflexivity.
  pose proof (hidden_rows_excluded (Layout.f32 4) (Layout.f32 8) Layout.form3 H)
    as (Hc & _ & _ & _ & Hm & _).
  split; [exact H |]. split; [exact Hc | exact Hm].
Defined.

Lemma MinSize_heights_example_witness :
  exists lw cw r1 r2 s,
    Layout.tableCellsSize (Layout.f32 4) (Layout.f32 8) Layout.form2 (Layout.f32 0)
      = Some (lw, cw, [r1; r2]) /\
    Layout.Height (fst r1) = Layout.f32 20 /\ Layout.Height (snd r1) = Layout.f32 20 /\
    Layout.Height (fst r2) = Layout.f32 30 /\ Layout.Height (snd r2) = Layout.f32 30 /\
    Layout.MinSize (Layout.f32 4) (Layout.f32 8) Layout.form2 = Some s /\
    Layout.Height s
      = Layout.fadd (Layout.fadd (Layout.f32 20) (Layout.f32 30)) (Layout.f32 4).
Proof.
  apply (MinSize_heights_example (Layout.f32 4) (Layout.f32 8)
           (Layout.box true 40 10) (Layout.box true 60 20)
           (Layout.box true 40 30) (Layout.box true 60 5));
    reflexivity.
Defined.

(** C5 as stated fails: with padding 4 the minimum height of the example
    form is 54 = 20 + 30 + 4, not 10 + 30 + 4. *)
Lemma MinSize_heights_not_10_30 :
  Layout.MinSize (Layout.f32 4) (Layout.f32 8) Layout.form2
    = Some (Layout.NewSize (Layout.f32 104) (Layout.f32 54)) /\
  ~ (exists s,
       Layout.MinSize (Layout.f32 4) (Layout.f32 8) Layout.form2 = Some s /\
       Layout.Height s
         = Layout.fadd (Layout.fadd (Layout.f32 10) (Layout.f32 30)) (Layout.f32 4)).
Proof.
  split; [vm_compute; reflexivity |].
  intros (s & Hs & Hh). vm_compute in Hs. injection Hs as <-.
  vm_compute in Hh. discriminate Hh.
Qed.

(** C2, at the failing input: on a list of three objects whose last one is
    invisible, [countRows] reads [objects[3]] and panics, and so do
    [tableCellsSize], [MinSize] and [Layout], which call it first. *)
Theorem odd_list_hidden_last_panics (padding innerPadding : Layout.float32)
    (containerWidth : Layout.float32) (size : Layout.Size) :
  (length Layout.oddHidden mod 2 = 1)%nat /\
  Layout.countRows Layout.oddHidden = None /\
  Layout.tableCellsSize padding innerPadding Layout.oddHidden containerWidth = None /\
  Layout.MinSize padding innerPadding Layout.oddHidden = None /\
  Layout.Layout padding innerPadding Layout.oddHidden size = None.
Proof. repeat split. Qed.

(** With the last object visible the size computation returns zero widths
    and zero cells, and [MinSize] a size that is not zero: one padding wide
    and, here, one padding high. *)
Lemma odd_list_shown_last (padding innerPadding : Layout.float32) :
  Layout.tableCellsSize padding innerPadding Layout.oddShown (Layout.f32 0)
    = Some (Layout.f32 0, Layout.f32 0, [Layout.zeroRow; Layout.zeroRow]) /\
  Layout.MinSize padding innerPadding Layout.oddShown
    = Some (Layout.NewSize
              (Layout.fadd (Layout.fadd (Layout.f32 0) (Layout.f32 0)) padding)
              (Layout.fadd (Layout.fadd (Layout.fadd (Layout.f32 0) (Layout.f32 0))
                                        (Layout.f32 0)) padding)).
Proof. split; reflexivity. Qed.

(* ===================================================================== *)
(** * Properties of app/preferences.go *)
(* ===================================================================== *)

Section PrefsFacts.

Import Prefs.

Context {value content : Type}.
Variable emptyContent : content.
Variable encode : gmap string value -> option content.
Variable decode : content -> option (gmap string value).
Variable Dir : string -> string.

Implicit Types (w : world value content) (p : preferences value)
  (d : fs content) (path : string).

Local Abbreviation saveToFile := (Prefs.saveToFile emptyContent encode Dir).
Local Abbreviation save := (Prefs.save emptyContent encode Dir).
Local Abbreviation changeListener := (Prefs.changeListener emptyContent encode Dir).
Local Abbreviation FireChange := (Prefs.FireChange emptyContent encode Dir).
Local Abbreviation resetFire := (Prefs.resetFire emptyContent encode Dir).
Local Abbreviation loadFromFile := (Prefs.loadFromFile emptyContent encode decode Dir).
Local Abbreviation notify := (Prefs.notify emptyContent encode Dir).

(** Names the world a change is fired in. *)
Local Ltac name_fired w1 :=
  match goal with
  | |- context [Prefs.FireChange _ _ _ ?x] => set (w1 := x)
  end.

(** ** Counting events *)

Lemma count_app (f : event -> bool) (t1 t2 : list event) :
  count f (t1 ++ t2) = (count f t1 + count f t2)%nat.
Proof. unfold count. rewrite List.filter_app, length_app. reflexivity. Qed.

(** ** saveToFile *)

(** What one call of [saveToFile] does to the process, whatever the file
    system answers: it sets the suspend guard and nothing else in the
    store, starts one reset goroutine, and is one save and at most one
    write. *)
Lemma saveToFile_effect w path :
  prefs (fst (saveToFile w path)) = set_suspendChange (prefs w) true /\
  timers (fst (saveToFile w path)) = S (timers w) /\
  exists evs,
    trace (fst (saveToFile w path)) = trace w ++ EvSave path :: evs /\
    (evs = [] \/ evs = [EvWrite path]).
Proof.
  unfold Prefs.saveToFile, encodeAndSync, os_MkdirAll, os_Create, os_Open, file_Write.
  cbn [disk emit with_prefs prefs].
  destruct (mkdirAllErr (disk w) (Dir path)); cbn.
  { repeat split. exists []. auto. }
  destruct (createErr (disk w) path) as [e|]; cbn.
  - destruct (IsExist e); cbn.
    + destruct (openErr (disk w) path); cbn; [repeat split; exists []; auto |].
      destruct (files (disk w) !! path); cbn; [| repeat split; exists []; auto].
      destruct (encode (values (prefs w))); cbn; repeat split; exists []; auto.
    + repeat split. exists []. auto.
  - destruct (encode (values (prefs w))); cbn; [| repeat split; exists []; auto].
    destruct (writeErr (disk w) path); cbn; repeat split.
    + exists []. auto.
    + exists [EvWrite path]. rewrite <- app_assoc. auto.
Qed.

Lemma saveToFile_saveCount w path :
  saveCount (fst (saveToFile w path)) = S (saveCount w).
Proof.
  destruct (saveToFile_effect w path) as (_ & _ & evs & Ht & Hevs).
  unfold saveCount. rewrite Ht, count_app.
  destruct Hevs as [-> | ->]; cbn; lia.
Qed.

Lemma saveToFile_writeCount w path :
  (writeCount (fst (saveToFile w path)) <= S (writeCount w))%nat.
Proof.
  destruct (saveToFile_effect w path) as (_ & _ & evs & Ht & Hevs).
  unfold writeCount. rewrite Ht, count_app.
  destruct Hevs as [-> | ->]; cbn; lia.
Qed.

(** A call that returns nil has written the encoded map to the file: one
    write, and the file holds the encoder's output. *)
Lemma saveToFile_nil w path :
  snd (saveToFile w path) = None ->
  exists c,
    encode (values (prefs w)) = Some c /\
    files (disk (fst (saveToFile w path))) !! path = Some c /\
    openErr (disk (fst (saveToFile w path))) = openErr (disk w) /\
    closeErr (disk (fst (saveToFile w path))) = closeErr (disk w) /\
    trace (fst (saveToFile w path)) = trace w ++ [EvSave path; EvWrite path].
Proof.
  unfold Prefs.saveToFile, encodeAndSync, os_MkdirAll, os_Create, os_Open,
    file_Write, file_Sync.
  cbn [disk emit with_prefs prefs].
  destruct (mkdirAllErr (disk w) (Dir path)); cbn; [discriminate |].
  destruct (createErr (disk w) path) as [e|]; cbn.
  - destruct (IsExist e); cbn; [| discriminate].
    destruct (openErr (disk w) path); cbn; [discriminate |].
    destruct (files (disk w) !! path); cbn; [| discriminate].
    destruct (encode (values (prefs w))); cbn; discriminate.
  - destruct (encode (values (prefs w))) as [c|]; cbn; [| discriminate].
    destruct (writeErr (disk w) path); cbn; [discriminate |].
    intros _. exists c. split; [reflexivity |].
    split; [rewrite insert_insert_eq; apply lookup_insert_eq |].
    repeat split. rewrite <- app_assoc. reflexivity.
Qed.

Lemma saveToFile_nil_writeCount w path :
  snd (saveToFile w path) = None ->
  writeCount (fst (saveToFile w path)) = S (writeCount w).
Proof.
  intros H. destruct (saveToFile_nil w path H) as (c & _ & _ & _ & _ & Ht).
  unfold writeCount. rewrite Ht, count_app. cbn. lia.
Qed.

(** The error [saveToFile] returns depends on the disk and the map only. *)
Lemma saveToFile_error_ext w1 w2 path :
  disk w1 = disk w2 -> values (prefs w1) = values (prefs w2) ->
  snd (saveToFile w1 path) = snd (saveToFile w2 path).
Proof.
  intros Hd Hv.
  destruct w1 as [p1 d1 n1 t1], w2 as [p2 d2 n2 t2].
  cbn [disk prefs] in Hd, Hv. subst d2.
  unfold Prefs.saveToFile, encodeAndSync, os_MkdirAll, os_Create, os_Open,
    file_Write, file_Sync.
  cbn [disk emit with_prefs prefs].
  destruct (mkdirAllErr d1 (Dir path)); cbn; [reflexivity |].
  destruct (createErr d1 path) as [e|]; cbn.
  - destruct (IsExist e); cbn; [| reflexivity].
    destruct (openErr d1 path); cbn; [reflexivity |].
    destruct (files d1 !! path); cbn; [| reflexivity].
    rewrite Hv. destruct (encode (values p2)); reflexivity.
  - rewrite Hv. destruct (encode (values p2)); cbn; [| reflexivity].
    destruct (writeErr d1 path); reflexivity.
Qed.

(** ** The change listener *)

Lemma with_prefs_id w : with_prefs w (prefs w) = w.
Proof. destruct w. reflexivity. Qed.

Lemma with_disk_id w : with_disk w (disk w) = w.
Proof. destruct w. reflexivity. Qed.

(** The listener with no guard set: it is the save of the store, with the
    failure logged. *)
Lemma changeListener_unguarded w :
  suspendChange (prefs w) = false -> loadingInProgress (prefs w) = false ->
  changeListener w
    = match save (emit w (EvChange false false)) with
      | (w', Some err) => emit w' (EvLogError "Failed on saving preferences" err)
      | (w', None) => w'
      end.
Proof.
  intros Hs Hl. destruct w as [p d n t]. cbn [prefs] in Hs, Hl.
  unfold Prefs.changeListener, listenerLocked.
  cbn [emit prefs with_prefs]. rewrite Hs, Hl. reflexivity.
Qed.

(** The listener inside the suspend window: no save, one more pending
    change. *)
Lemma changeListener_suspended w :
  suspendChange (prefs w) = true ->
  prefs (changeListener w)
    = set_numSuspendedChanges (prefs w)
        (wrap_int (numSuspendedChanges (prefs w) + 1)) /\
  disk (changeListener w) = disk w /\
  timers (changeListener w) = timers w /\
  trace (changeListener w)
    = trace w ++ [EvChange (loadingInProgress (prefs w)) true].
Proof.
  intros Hs. unfold Prefs.changeListener, listenerLocked.
  cbn [emit prefs]. rewrite Hs. cbn. repeat split; reflexivity.
Qed.

(** The listener during a load, outside the suspend window: no save, and
    the store as it was. *)
Lemma changeListener_loading w :
  suspendChange (prefs w) = false -> loadingInProgress (prefs w) = true ->
  prefs (changeListener w) = prefs w /\
  disk (changeListener w) = disk w /\
  timers (changeListener w) = timers w /\
  trace (changeListener w) = trace w ++ [EvChange true false].
Proof.
  intros Hs Hl. unfold Prefs.changeListener, listenerLocked.
  cbn [emit prefs]. rewrite Hs, Hl. cbn. repeat split; reflexivity.
Qed.

(** The listener with no guard set: one save, which sets the guard and
    starts the reset timer. *)
Lemma changeListener_saves w :
  suspendChange (prefs w) = false -> loadingInProgress (prefs w) = false ->
  prefs (changeListener w) = set_suspendChange (prefs w) true /\
  timers (changeListener w) = S (timers w) /\
  saveCount (changeListener w) = S (saveCount w) /\
  (writeCount (changeListener w) <= S (writeCount w))%nat /\
  (snd (save w) = None -> writeCount (changeListener w) = S (writeCount w)).
Proof.
  intros Hs Hl. rewrite (changeListener_unguarded w Hs Hl).
  set (w0 := emit w (EvChange false false)).
  assert (E0 : saveCount w0 = saveCount w /\ writeCount w0 = writeCount w).
  { unfold saveCount, writeCount, w0. cbn [emit trace].
    rewrite !count_app. cbn. lia. }
  destruct E0 as [Es Ew].
  assert (Herr : snd (save w0) = snd (save w)).
  { apply saveToFile_error_ext; reflexivity. }
  unfold Prefs.save in *. change (storagePath (prefs w0)) with (storagePath (prefs w)) in *.
  pose proof (saveToFile_effect w0 (storagePath (prefs w))) as (Hp & Ht & _).
  pose proof (saveToFile_saveCount w0 (storagePath (prefs w))) as Hsc.
  pose proof (saveToFile_writeCount w0 (storagePath (prefs w))) as Hwc.
  pose proof (saveToFile_nil_writeCount w0 (storagePath (prefs w))) as Hnil.
  destruct (saveToFile w0 (storagePath (prefs w))) as [w' [err|]];
    cbn [fst snd] in *.
  - unfold saveCount, writeCount in *. cbn [emit prefs timers trace].
    rewrite !count_app. cbn.
    rewrite Hp, Ht. repeat split; try reflexivity; try lia.
    intros Hn. rewrite <- Herr in Hn. discriminate Hn.
  - rewrite Hp, Ht. repeat split; try reflexivity; try lia.
    intros _. rewrite Hnil by reflexivity. lia.
Qed.

(** C3, amended: when [suspendChange] is set the listener skips the save
    and increments [numSuspendedChanges]; when only [loadingInProgress] is
    set it skips the save and leaves the counter as it is; when neither is
    set it runs one save, which sets the suspend guard and starts the reset
    timer. *)
Theorem changeListener_guards w :
  (suspendChange (prefs w) = true ->
     prefs (changeListener w)
       = set_numSuspendedChanges (prefs w)
           (wrap_int (numSuspendedChanges (prefs w) + 1)) /\
     disk (changeListener w) = disk w /\
     timers (changeListener w) = timers w /\
     saveCount (changeListener w) = saveCount w) /\
  (suspendChange (prefs w) = false -> loadingInProgress (prefs w) = true ->
     prefs (changeListener w) = prefs w /\
     disk (changeListener w) = disk w /\
     timers (changeListener w) = timers w /\
     saveCount (changeListener w) = saveCount w) /\
  (suspendChange (prefs w) = false -> loadingInProgress (prefs w) = false ->
     prefs (changeListener w) = set_suspendChange (prefs w) true /\
     timers (changeListener w) = S (timers w) /\
     saveCount (changeListener w) = S (saveCount w) /\
     (writeCount (changeListener w) <= S (writeCount w))%nat /\
     (snd (save w) = None -> writeCount (changeListener w) = S (writeCount w))).
Proof.
  split; [| split].
  - intros Hs. destruct (changeListener_suspended w Hs) as (Hp & Hd & Ht & Htr).
    repeat split; try assumption.
    unfold saveCount. rewrite Htr, count_app. cbn. lia.
  - intros Hs Hl. destruct (changeListener_loading w Hs Hl) as (Hp & Hd & Ht & Htr).
    repeat split; try assumption.
    unfold saveCount. rewrite Htr, count_app. cbn. lia.
  - apply changeListener_saves.
Qed.

(** ** Bursts of notifications *)

(** A notification inside the suspend window touches the pending counter
    and nothing else. *)
Lemma FireChange_suspended w :
  suspendChange (prefs w) = true ->
  suspendChange (prefs (FireChange w)) = true /\
  loadingInProgress (prefs (FireChange w)) = loadingInProgress (prefs w) /\
  hasListener (prefs (FireChange w)) = hasListener (prefs w) /\
  values (prefs (FireChange w)) = values (prefs w) /\
  numSuspendedChanges (prefs (FireChange w))
    = (if hasListener (prefs w)
       then wrap_int (numSuspendedChanges (prefs w) + 1)
       else numSuspendedChanges (prefs w)) /\
  disk (FireChange w) = disk w /\
  timers (FireChange w) = timers w /\
  saveCount (FireChange w) = saveCount w /\
  writeCount (FireChange w) = writeCount w.
Proof.
  intros Hs. unfold Prefs.FireChange.
  destruct (hasListener (prefs w)) eqn:Hh; [| repeat split; assumption].
  destruct (changeListener_suspended w Hs) as (Hp & Hd & Ht & Htr).
  unfold saveCount, writeCount. rewrite Hp, Hd, Ht, Htr, !count_app.
  cbn. repeat split; try assumption; lia.
Qed.

(** The pending counter after [n] increments. *)
Lemma notify_suspended (n : nat) : forall w,
  suspendChange (prefs w) = true ->
  suspendChange (prefs (notify n w)) = true /\
  values (prefs (notify n w)) = values (prefs w) /\
  numSuspendedChanges (prefs (notify n w))
    = (if hasListener (prefs w)
       then Nat.iter n (fun z => wrap_int (z + 1)) (numSuspendedChanges (prefs w))
       else numSuspendedChanges (prefs w)) /\
  disk (notify n w) = disk w /\
  timers (notify n w) = timers w /\
  saveCount (notify n w) = saveCount w /\
  writeCount (notify n w) = writeCount w.
Proof.
  induction n as [|n IH]; intros w Hs.
  - cbn. destruct (hasListener (prefs w)); repeat split; assumption.
  - destruct (FireChange_suspended w Hs)
      as (Hs1 & _ & Hh1 & Hv1 & Hn1 & Hd1 & Ht1 & Hsc1 & Hwc1).
    destruct (IH (FireChange w) Hs1) as (Hs2 & Hv2 & Hn2 & Hd2 & Ht2 & Hsc2 & Hwc2).
    cbn [Prefs.notify].
    rewrite Hv2, Hn2, Hd2, Ht2, Hsc2, Hwc2, Hh1, Hn1.
    repeat split; try assumption.
    destruct (hasListener (prefs w)); [| reflexivity].
    rewrite Nat.iter_succ_r. reflexivity.
Qed.

(** When the window closes with changes pending, the reset goroutine fires
    one change, and with no load in progress that is one more save. *)
Lemma resetFire_flushes w (k : nat) :
  timers w = S k -> hasListener (prefs w) = true ->
  loadingInProgress (prefs w) = false ->
  0 < numSuspendedChanges (prefs w) ->
  saveCount (resetFire w) = S (saveCount w) /\
  numSuspendedChanges (prefs (resetFire w)) = 0 /\
  suspendChange (prefs (resetFire w)) = true.
Proof.
  intros Ht Hh Hl Hn. unfold Prefs.resetFire. rewrite Ht.
  cbn [with_timers prefs with_prefs].
  apply Z.ltb_lt in Hn. rewrite Hn.
  name_fired w1.
  assert (HF : FireChange w1 = changeListener w1)
    by (unfold Prefs.FireChange; subst w1; cbn; rewrite Hh; reflexivity).
  destruct (changeListener_saves w1) as (Hp & _ & Hsc & _); [reflexivity | exact Hl |].
  rewrite HF, Hp, Hsc. repeat split.
Qed.

(** With nothing pending the reset goroutine only clears the guard. *)
Lemma resetFire_idle w (k : nat) :
  timers w = S k -> numSuspendedChanges (prefs w) = 0 ->
  saveCount (resetFire w) = saveCount w /\
  suspendChange (prefs (resetFire w)) = false /\
  disk (resetFire w) = disk w.
Proof.
  intros Ht Hn. unfold Prefs.resetFire. rewrite Ht.
  cbn [with_timers prefs]. rewrite Hn. cbn. repeat split.
Qed.

(** ** Loading *)

(** A notification while [loadingInProgress] is set: the listener, if
    there is one, runs and returns before any save. *)
Lemma FireChange_loading w :
  loadingInProgress (prefs w) = true ->
  trace (FireChange w)
    = trace w ++ (if hasListener (prefs w)
                  then [EvChange true (suspendChange (prefs w))] else []) /\
  disk (FireChange w) = disk w /\
  timers (FireChange w) = timers w /\
  values (prefs (FireChange w)) = values (prefs w) /\
  suspendChange (prefs (FireChange w)) = suspendChange (prefs w) /\
  hasListener (prefs (FireChange w)) = hasListener (prefs w).
Proof.
  intros Hl. unfold Prefs.FireChange.
  destruct (hasListener (prefs w)) eqn:Hh.
  - destruct (suspendChange (prefs w)) eqn:Hs.
    + destruct (changeListener_suspended w Hs) as (Hp & Hd & Ht & Htr).
      rewrite Hp, Hd, Ht, Htr, Hl. cbn. rewrite Hs, Hh. repeat split.
    + destruct (changeListener_loading w Hs Hl) as (Hp & Hd & Ht & Htr).
      rewrite Hp, Hd, Ht, Htr, Hs, Hh. repeat split.
  - rewrite app_nil_r, Hh. repeat split.
Qed.

(** [loadFromFile] on a file that opens: the decoded members are stored
    over the map, a failure to decode leaves the map as it is. *)
Lemma loadFromFile_present w path (h : handle) :
  os_Open (disk w) path = inr h ->
  values (prefs (fst (loadFromFile w path)))
    = match decode (file_Read emptyContent (disk w) h) with
      | Some m => m ∪ values (prefs w)
      | None => values (prefs w)
      end /\
  snd (loadFromFile w path)
    = match decode (file_Read emptyContent (disk w) h) with
      | Some _ => file_Close (disk w) h
      | None => Some ErrDecode
      end.
Proof.
  intros Ho. unfold Prefs.loadFromFile. rewrite Ho.
  cbn [with_prefs disk prefs].
  destruct (decode (file_Read emptyContent (disk w) h)) as [m|].
  - name_fired w1.
    destruct (FireChange_loading w1 eq_refl) as (_ & Hd & _ & Hv & _).
    cbn [fst snd with_prefs prefs set_loadingInProgress values disk].
    rewrite Hv, Hd. subst w1. cbn.
    split; [reflexivity |]. destruct (file_Close (disk w) h); reflexivity.
  - name_fired w1.
    destruct (FireChange_loading w1 eq_refl) as (_ & Hd & _ & Hv & _).
    cbn [fst snd with_prefs prefs set_loadingInProgress values disk].
    rewrite Hv, Hd. subst w1. cbn.
    split; [reflexivity |]. destruct (file_Close (disk w) h); reflexivity.
Qed.


(** ** Save, then load *)

(** C7, amended: when [saveToFile] returns no error, the document it wrote decodes
    to the map it encoded, and the file opens, then [loadFromFile] of that
    file reproduces the map: in the store that saved it and in a new store.
    Loaded into any store it is the saved map, over what that store held. *)
Theorem save_then_load w path :
  snd (saveToFile w path) = None ->
  (forall c, encode (values (prefs w)) = Some c ->
             decode c = Some (values (prefs w))) ->
  openErr (disk w) path = None ->
  values (prefs (fst (loadFromFile (fst (saveToFile w path)) path)))
    = values (prefs w) /\
  (forall uniqueID path',
     values (prefs (fst (loadFromFile
                           (with_prefs (fst (saveToFile w path))
                                       (newPreferences value uniqueID path'))
                           path)))
       = values (prefs w)) /\
  (forall p,
     values (prefs (fst (loadFromFile (with_prefs (fst (saveToFile w path)) p) path)))
       = values (prefs w) ∪ values p).
Proof.
  intros Hsave Hcodec Hopen.
  destruct (saveToFile_nil w path Hsave) as (c & Henc & Hfile & Ho & _ & _).
  destruct (saveToFile_effect w path) as (Hp & _).
  assert (Hload : forall p,
    values (prefs (fst (loadFromFile (with_prefs (fst (saveToFile w path)) p) path)))
      = values (prefs w) ∪ values p).
  { intros p.
    set (w1 := with_prefs (fst (saveToFile w path)) p).
    assert (Hopen1 : os_Open (disk w1) path = inr {| hpath := path; writable := false |}).
    { unfold os_Open. subst w1. cbn [with_prefs disk].
      rewrite Ho, Hopen, Hfile. reflexivity. }
    destruct (loadFromFile_present w1 path _ Hopen1) as [Hv _].
    rewrite Hv. unfold file_Read. subst w1. cbn [with_prefs disk hpath prefs].
    rewrite Hfile. simpl. rewrite (Hcodec c Henc). reflexivity. }
  split; [| split; [| exact Hload]].
  - rewrite <- (with_prefs_id (fst (saveToFile w path))) at 1.
    rewrite Hload, Hp. cbn [values set_suspendChange].
    apply map_union_idemp.
  - intros uniqueID path'. rewrite Hload. cbn [values newPreferences].
    apply map_union_empty.
Qed.

(** ** Loading when the file does not open *)

Lemma os_Open_absent d path :
  openErr d path = None -> files d !! path = None ->
  os_Open d path = inl ErrNotExist.
Proof. intros H1 H2. unfold os_Open. rewrite H1, H2. reflexivity. Qed.

(** C8, amended: when opening the backing file fails with a not-exist
    error, [loadFromFile] tries to create the parent directory; when that
    succeeds it returns nil, the directory exists, and the map is as it was
    (empty in a new store); when it fails, that error is returned.  Any
    other open failure is returned as the error.  In no case is the map or
    a file touched. *)
Theorem loadFromFile_not_opened w path (err : error) :
  os_Open (disk w) path = inl err ->
  (IsNotExist err = true -> mkdirAllErr (disk w) (Dir path) = None ->
     snd (loadFromFile w path) = None /\
     dirs (disk (fst (loadFromFile w path))) = {[Dir path]} ∪ dirs (disk w)) /\
  (IsNotExist err = true ->
   forall err', mkdirAllErr (disk w) (Dir path) = Some err' ->
     snd (loadFromFile w path) = Some err' /\
     dirs (disk (fst (loadFromFile w path))) = dirs (disk w)) /\
  (IsNotExist err = false ->
     snd (loadFromFile w path) = Some err /\
     dirs (disk (fst (loadFromFile w path))) = dirs (disk w)) /\
  prefs (fst (loadFromFile w path)) = prefs w /\
  files (disk (fst (loadFromFile w path))) = files (disk w).
Proof.
  intros Ho. unfold Prefs.loadFromFile, os_MkdirAll. rewrite Ho.
  destruct (IsNotExist err);
    [destruct (mkdirAllErr (disk w) (Dir path)) eqn:Hm |]; cbn.
  - split; [intros _ Hnone; discriminate Hnone |].
    split; [intros _ err' [= <-]; split; reflexivity |].
    split; [intros Hne; discriminate Hne |].
    split; reflexivity.
  - split; [intros _ _; split; reflexivity |].
    split; [intros _ err' Hsome; discriminate Hsome |].
    split; [intros Hne; discriminate Hne |].
    split; reflexivity.
  - split; [intros Hne; discriminate Hne |].
    split; [intros Hne; discriminate Hne |].
    split; [intros _; split; reflexivity |].
    split; reflexivity.
Qed.

End PrefsFacts.

(** ** The theorems at concrete stores *)

(** The codec of the examples reads back what it writes. *)
Lemma docDecode_docEncode (m : gmap string Prefs.jvalue) (c : Prefs.document) :
  Prefs.docEncode m = Some c -> Prefs.docDecode c = Some m.
Proof.
  unfold Prefs.docEncode, Prefs.docDecode. intros [= <-].
  f_equal. apply list_to_map_to_list.
Qed.

Lemma changeListener_guards_witness :
  Prefs.numSuspendedChanges
    (Prefs.prefs (Prefs.changeListener [] Prefs.docEncode Prefs.cfgDir Prefs.suspendedWorld))
    = 1 /\
  Prefs.prefs (Prefs.changeListener [] Prefs.docEncode Prefs.cfgDir Prefs.loadingWorld)
    = Prefs.prefs Prefs.loadingWorld /\
  Prefs.saveCount (Prefs.changeListener [] Prefs.docEncode Prefs.cfgDir Prefs.demoWorld)
    = 1%nat /\
  Prefs.writeCount (Prefs.changeListener [] Prefs.docEncode Prefs.cfgDir Prefs.demoWorld)
    = 1%nat.
Proof.
  destruct (changeListener_guards [] Prefs.docEncode Prefs.cfgDir Prefs.suspendedWorld)
    as (H1 & _ & _).
  destruct (changeListener_guards [] Prefs.docEncode Prefs.cfgDir Prefs.loadingWorld)
    as (_ & H2 & _).
  destruct (changeListener_guards [] Prefs.docEncode Prefs.cfgDir Prefs.demoWorld)
    as (_ & _ & H3).
  destruct (H1 eq_refl) as (Hp1 & _).
  destruct (H2 eq_refl eq_refl) as (Hp2 & _).
  destruct (H3 eq_refl eq_refl) as (_ & _ & Hs3 & _ & Hw3).
  split; [rewrite Hp1; reflexivity |]. split; [exact Hp2 |].
  split; [exact Hs3 | exact (Hw3 eq_refl)].
Defined.

(** C3 as stated fails: with only [loadingInProgress] set the listener
    skips the save and does not increment [numSuspendedChanges]. *)
Lemma changeListener_loading_keeps_counter :
  Prefs.loadingInProgress (Prefs.prefs Prefs.loadingWorld) = true /\
  Prefs.suspendChange (Prefs.prefs Prefs.loadingWorld) = false /\
  Prefs.saveCount (Prefs.changeListener [] Prefs.docEncode Prefs.cfgDir Prefs.loadingWorld)
    = Prefs.saveCount Prefs.loadingWorld /\
  Prefs.numSuspendedChanges
    (Prefs.prefs (Prefs.changeListener [] Prefs.docEncode Prefs.cfgDir Prefs.loadingWorld))
    = 0 /\
  Prefs.numSuspendedChanges
    (Prefs.prefs (Prefs.changeListener [] Prefs.docEncode Prefs.cfgDir Prefs.loadingWorld))
    <> Prefs.numSuspendedChanges (Prefs.prefs Prefs.loadingWorld) + 1.
Proof. repeat split. discriminate. Qed.

Lemma loadFromFile_not_opened_witness :
  snd (Prefs.loadFromFile [] Prefs.docEncode Prefs.docDecode Prefs.cfgDir
         Prefs.newWorld Prefs.cfgPath) = None /\
  Prefs.values
    (Prefs.prefs (fst (Prefs.loadFromFile [] Prefs.docEncode Prefs.docDecode
                         Prefs.cfgDir Prefs.newWorld Prefs.cfgPath))) = ∅ /\
  snd (Prefs.loadFromFile [] Prefs.docEncode Prefs.docDecode Prefs.cfgDir
         Prefs.readOnlyWorld Prefs.cfgPath) = Some Prefs.ErrPermission /\
  snd (Prefs.loadFromFile [] Prefs.docEncode Prefs.docDecode Prefs.cfgDir
         Prefs.deniedWorld Prefs.cfgPath) = Some Prefs.ErrPermission.
Proof.
  destruct (loadFromFile_not_opened [] Prefs.docEncode Prefs.docDecode Prefs.cfgDir
              Prefs.newWorld Prefs.cfgPath Prefs.ErrNotExist eq_refl)
    as (H1 & _ & _ & Hp & _).
  destruct (loadFromFile_not_opened [] Prefs.docEncode Prefs.docDecode Prefs.cfgDir
              Prefs.readOnlyWorld Prefs.cfgPath Prefs.ErrNotExist eq_refl)
    as (_ & H2 & _).
  destruct (loadFromFile_not_opened [] Prefs.docEncode Prefs.docDecode Prefs.cfgDir
              Prefs.deniedWorld Prefs.cfgPath Prefs.ErrPermission eq_refl)
    as (_ & _ & H3 & _).
  split; [exact (proj1 (H1 eq_refl eq_refl)) |].
  split; [rewrite Hp; reflexivity |].
  split; [exact (proj1 (H2 eq_refl Prefs.ErrPermission eq_refl)) |].
  exact (proj1 (H3 eq_refl)).
Defined.

(** C8 as stated fails: the file is absent, the parent directory cannot be
    created, and [loadFromFile] returns that error instead of nil. *)
Lemma loadFromFile_absent_returns_error :
  Prefs.files (Prefs.disk Prefs.readOnlyWorld) !! Prefs.cfgPath = None /\
  Prefs.os_Open (Prefs.disk Prefs.readOnlyWorld) Prefs.cfgPath
    = inl Prefs.ErrNotExist /\
  snd (Prefs.loadFromFile [] Prefs.docEncode Prefs.docDecode Prefs.cfgDir
         Prefs.readOnlyWorld Prefs.cfgPath) = Some Prefs.ErrPermission /\
  snd (Prefs.loadFromFile [] Prefs.docEncode Prefs.docDecode Prefs.cfgDir
         Prefs.readOnlyWorld Prefs.cfgPath) <> None.
Proof. repeat split. discriminate. Qed.

(* ===================================================================== *)
(** * Further properties of layout/formlayout.go *)
(* ===================================================================== *)

Section LayoutMore.

Import Layout.

Variables padding innerPadding : float32.

Implicit Types (objects rest out : list CanvasObject) (table : list tableRow).

(** Every list is of even length, or one object after a list of even
    length. *)
Lemma even_or_odd objects :
  (length objects mod 2 = 0)%nat \/
  exists objects' o, objects = objects' ++ [o] /\ (length objects' mod 2 = 0)%nat.
Proof.
  induction objects as [|a objects IH] using rev_ind; [left; reflexivity |].
  destruct IH as [He | (objects' & o & -> & He)].
  - right. exists objects, a. split; [reflexivity | exact He].
  - left. rewrite <- app_assoc, length_app. cbn [app length].
    rewrite <- Nat.Div0.add_mod_idemp_l, He. reflexivity.
Qed.

(** X1: on a list of odd length [countRows] panics exactly when the last
    object is invisible; when it is visible the count is the number of
    shown rows before it, plus one for the object itself. *)
Theorem countRows_odd objects (o : CanvasObject) :
  (length objects mod 2 = 0)%nat ->
  countRows (objects ++ [o])
    = if obj_Visible o
      then Some (S (length (shownRows objects) / 2))%nat
      else None.
Proof.
  intros H. unfold countRows. rewrite (countRows_loop_odd objects o H 0%nat).
  reflexivity.
Qed.

(** X2: on a list of odd length whose last object is visible,
    [tableCellsSize] ignores the objects and the container width: it returns
    zero column widths and a table of zero cells, one row per counted row. *)
Theorem tableCellsSize_odd_visible objects (o : CanvasObject)
    (containerWidth : float32) :
  (length objects mod 2 = 0)%nat -> obj_Visible o = true ->
  tableCellsSize padding innerPadding (objects ++ [o]) containerWidth
    = Some (f32 0, f32 0,
            replicate (S (length (shownRows objects) / 2)) zeroRow) /\
  countRows (objects ++ [o]) = Some (S (length (shownRows objects) / 2))%nat.
Proof.
  intros H Hv. split.
  - rewrite (tableCellsSize_odd padding innerPadding objects o containerWidth H), Hv.
    reflexivity.
  - unfold countRows. rewrite (countRows_loop_odd objects o H 0%nat), Hv.
    reflexivity.
Qed.

(** ** The table as a map over the shown rows *)

Lemma cellsOf_length objects :
  (length objects mod 2 = 0)%nat ->
  length (cellsOf innerPadding objects) = (length objects / 2)%nat.
Proof.
  revert objects.
  apply (rows_ind (fun objects =>
    length (cellsOf innerPadding objects) = (length objects / 2)%nat)).
  - reflexivity.
  - intros l c rest _ IH. cbn [cellsOf length]. rewrite half_SS, IH. reflexivity.
Qed.

(** The loop fills the table from [row] on with the cells of the shown
    rows, in order, and folds their widths into the two maxima. *)
Lemma tableCells_loop_cells objects :
  (length objects mod 2 = 0)%nat ->
  forall (rows row : nat) (lw cw : float32) (filled : list tableRow),
    length filled = row ->
    rows = (row + length (cellsOf innerPadding (shownRows objects)))%nat ->
    tableCells_loop innerPadding objects rows row lw cw
        (filled ++ replicate (rows - row) zeroRow)
      = Some (labelWidthFrom lw (cellsOf innerPadding (shownRows objects)),
              contentWidthFrom cw (cellsOf innerPadding (shownRows objects)),
              filled ++ cellsOf innerPadding (shownRows objects)).
Proof.
  revert objects.
  apply (rows_ind (fun objects =>
    forall (rows row : nat) (lw cw : float32) (filled : list tableRow),
    length filled = row ->
    rows = (row + length (cellsOf innerPadding (shownRows objects)))%nat ->
    tableCells_loop innerPadding objects rows row lw cw
        (filled ++ replicate (rows - row) zeroRow)
      = Some (labelWidthFrom lw (cellsOf innerPadding (shownRows objects)),
              contentWidthFrom cw (cellsOf innerPadding (shownRows objects)),
              filled ++ cellsOf innerPadding (shownRows objects)))).
  - intros rows row lw cw filled Hlen Hrows. cbn [shownRows cellsOf length] in *.
    rewrite tableCells_loop_done by (apply Nat.ltb_ge; lia).
    replace (rows - row)%nat with 0%nat by lia. reflexivity.
  - intros l c rest Hrest IH rows row lw cw filled Hlen Hrows.
    cbn [shownRows] in *.
    destruct (negb (obj_Visible l) && negb (obj_Visible c)) eqn:E.
    + destruct (row <? rows)%nat eqn:Hrow.
      * rewrite tableCells_loop_cons2 by exact Hrow. rewrite E.
        apply IH; assumption.
      * apply Nat.ltb_ge in Hrow.
        assert (Hz : length (cellsOf innerPadding (shownRows rest)) = 0%nat) by lia.
        destruct (cellsOf innerPadding (shownRows rest)); [| discriminate Hz].
        rewrite tableCells_loop_done by (apply Nat.ltb_ge; lia).
        replace (rows - row)%nat with 0%nat by lia. reflexivity.
    + cbn [cellsOf length] in *.
      assert (Hrow : (row <? rows)%nat = true) by (apply Nat.ltb_lt; lia).
      rewrite tableCells_loop_cons2 by exact Hrow. rewrite E.
      replace (rows - row)%nat
        with (S (rows - S row))%nat by lia.
      cbn [replicate].
      replace (<[row := rowCells innerPadding l c]>
                 (filled ++ zeroRow :: replicate (rows - S row) zeroRow))
        with ((filled ++ [rowCells innerPadding l c])
                ++ replicate (rows - S row) zeroRow).
      * rewrite (IH rows (S row) _ _ (filled ++ [rowCells innerPadding l c])).
        -- rewrite <- app_assoc. reflexivity.
        -- rewrite length_app. cbn [length]. lia.
        -- lia.
      * rewrite <- app_assoc. cbn [app].
        rewrite <- Hlen.
        replace (length filled) with (length filled + 0)%nat at 2 by lia.
        rewrite insert_app_r. reflexivity.
Qed.

(** The size computation of a list of even length, in closed form. *)
Lemma tableCellsSize_closed objects (containerWidth : float32) :
  (length objects mod 2 = 0)%nat ->
  tableCellsSize padding innerPadding objects containerWidth
    = Some (labelWidthFrom (f32 0) (cellsOf innerPadding (shownRows objects)),
            fyne_Max
              (contentWidthFrom (f32 0) (cellsOf innerPadding (shownRows objects)))
              (fsub (fsub containerWidth
                      (labelWidthFrom (f32 0)
                         (cellsOf innerPadding (shownRows objects))))
                    padding),
            cellsOf innerPadding (shownRows objects)).
Proof.
  intros H. unfold tableCellsSize.
  rewrite (countRows_even objects H), (even_mod_test objects H).
  pose proof (cellsOf_length (shownRows objects) (shownRows_even objects H)) as Hlen.
  pose proof (tableCells_loop_cells objects H
                (length (shownRows objects) / 2)%nat 0%nat (f32 0) (f32 0) []
                eq_refl) as Hloop.
  cbn [app] in Hloop. rewrite Nat.sub_0_r in Hloop.
  rewrite Hloop by (rewrite Hlen; reflexivity).
  reflexivity.
Qed.

(** X3: on a list of even length the table [tableCellsSize] returns is the
    list of the cells of the shown rows, in order; the label width is the
    running maximum of their label widths from zero, and the content width
    the larger of that column's maximum and what the container leaves after
    the label column and one padding. *)
Theorem tableCellsSize_cells objects (containerWidth : float32) :
  (length objects mod 2 = 0)%nat ->
  tableCellsSize padding innerPadding objects containerWidth
    = Some (labelWidthFrom (f32 0) (cellsOf innerPadding (shownRows objects)),
            fyne_Max
              (contentWidthFrom (f32 0) (cellsOf innerPadding (shownRows objects)))
              (fsub (fsub containerWidth
                      (labelWidthFrom (f32 0)
                         (cellsOf innerPadding (shownRows objects))))
                    padding),
            cellsOf innerPadding (shownRows objects)).
Proof.
  intros H. unfold tableCellsSize.
  rewrite (countRows_even objects H), (even_mod_test objects H).
  pose proof (cellsOf_length (shownRows objects) (shownRows_even objects H)) as Hlen.
  pose proof (tableCells_loop_cells objects H
                (length (shownRows objects) / 2)%nat 0%nat (f32 0) (f32 0) []
                eq_refl) as Hloop.
  cbn [app] in Hloop. rewrite Nat.sub_0_r in Hloop.
  rewrite Hloop by (rewrite Hlen; reflexivity).
  reflexivity.
Qed.

Lemma cellsOf_level objects :
  Forall (fun r => Height (fst r) = Height (snd r)) (cellsOf innerPadding objects).
Proof.
  assert (H : forall rest,
            Forall (fun r => Height (fst r) = Height (snd r))
                   (cellsOf innerPadding rest) /\
            forall o, Forall (fun r => Height (fst r) = Height (snd r))
                             (cellsOf innerPadding (o :: rest))).
  { induction rest as [|c rest [IH1 IH2]].
    - split; [constructor | intros o; constructor].
    - split; [apply IH2 |].
      intros o. cbn [cellsOf]. constructor; [reflexivity | exact IH1]. }
  apply H.
Qed.

(** X4: in every table row the label cell and the content cell have the
    same height, the larger of the two minimum heights. *)
Theorem table_rows_level objects (containerWidth lw cw : float32) table :
  (length objects mod 2 = 0)%nat ->
  tableCellsSize padding innerPadding objects containerWidth = Some (lw, cw, table) ->
  Forall (fun r => Height (fst r) = Height (snd r)) table.
Proof.
  intros H Ht. rewrite (tableCellsSize_closed objects containerWidth H) in Ht.
  injection Ht as _ _ <-. apply cellsOf_level.
Qed.

(** ** Forms with nothing to show *)

Lemma Layout_loop_all_hidden (lw cw : float32) table objects :
  (length objects mod 2 = 0)%nat ->
  shownRows objects = [] ->
  forall (row : nat) (y : float32),
    Layout_loop padding innerPadding lw cw table objects row y = Some objects.
Proof.
  revert objects.
  apply (rows_ind (fun objects => shownRows objects = [] ->
    forall (row : nat) (y : float32),
      Layout_loop padding innerPadding lw cw table objects row y = Some objects)).
  - reflexivity.
  - intros l c rest _ IH Hs row y. cbn [shownRows Layout_loop] in *.
    destruct (negb (obj_Visible l) && negb (obj_Visible c)); [| discriminate Hs].
    rewrite (IH Hs). reflexivity.
Qed.

(** X5: a form of even length in which every row has two invisible cells
    (the empty form included) has the minimum size zero, without any
    padding, and [Layout] leaves all its objects as they are. *)
Theorem nothing_shown objects (size : Size) :
  (length objects mod 2 = 0)%nat ->
  shownRows objects = [] ->
  MinSize padding innerPadding objects = Some (NewSize (f32 0) (f32 0)) /\
  Layout padding innerPadding objects size = Some objects.
Proof.
  intros H Hs. unfold MinSize, Layout.
  rewrite !(tableCellsSize_closed objects _ H), Hs. cbn [cellsOf length Nat.eqb].
  split; [reflexivity |].
  apply Layout_loop_all_hidden; assumption.
Qed.

(** ** What Layout changes *)

Lemma pairs_ind (P : list CanvasObject -> Prop) :
  P [] -> (forall o, P [o]) ->
  (forall l c rest, P rest -> P (l :: c :: rest)) ->
  forall objects, P objects.
Proof.
  intros Hnil Hone Hstep objects.
  assert (H : P objects /\ forall o, P (o :: objects)).
  { induction objects as [|a objects [IH1 IH2]].
    - split; [exact Hnil | exact Hone].
    - split; [apply IH2 | intros o; apply Hstep, IH1]. }
  apply H.
Qed.

Lemma placeLabel_sameShape (o : CanvasObject) (lw y : float32) (r : tableRow) :
  sameShape o (placeLabel innerPadding o lw y r).
Proof. unfold placeLabel, sameShape. destruct (isText o) eqn:E; cbn; auto. Qed.

Lemma placeContent_sameShape (o : CanvasObject) (lw cw y : float32) (r : tableRow) :
  sameShape o (placeContent padding innerPadding o lw cw y r).
Proof. unfold placeContent, sameShape. destruct (isText o) eqn:E; cbn; auto. Qed.

Lemma sameShape_refl (o : CanvasObject) : sameShape o o.
Proof. unfold sameShape. auto. Qed.

Lemma Layout_loop_sameShape (lw cw : float32) table objects :
  forall (row : nat) (y : float32) out,
    Layout_loop padding innerPadding lw cw table objects row y = Some out ->
    Forall2 sameShape objects out.
Proof.
  revert objects.
  apply (pairs_ind (fun objects => forall (row : nat) (y : float32) out,
    Layout_loop padding innerPadding lw cw table objects row y = Some out ->
    Forall2 sameShape objects out)).
  - intros row y out [= <-]. constructor.
  - intros o row y out. cbn [Layout_loop].
    destruct (rowStart padding table row y) as [[y' r]|]; [| discriminate].
    intros [= <-]. constructor; [apply placeLabel_sameShape | constructor].
  - intros l c rest IH row y out. cbn [Layout_loop].
    destruct (negb (obj_Visible l) && negb (obj_Visible c)).
    + destruct (Layout_loop padding innerPadding lw cw table rest row y)
        as [out'|] eqn:E; [| discriminate].
      intros [= <-].
      constructor; [apply sameShape_refl |].
      constructor; [apply sameShape_refl |]. eapply IH, E.
    + destruct (rowStart padding table row y) as [[y' r]|]; [| discriminate].
      destruct (Layout_loop padding innerPadding lw cw table rest (S row) y')
        as [out'|] eqn:E; [| discriminate].
      intros [= <-].
      constructor; [apply placeLabel_sameShape |].
      constructor; [apply placeContent_sameShape |]. eapply IH, E.
Qed.

(** X6: whenever [Layout] returns, it returns as many objects as it was
    given, each with the visibility, minimum size and type it had: only
    positions and sizes change. *)
Theorem Layout_changes_geometry_only objects (size : Size) out :
  Layout padding innerPadding objects size = Some out ->
  length out = length objects /\
  Forall2 sameShape objects out.
Proof.
  unfold Layout.
  destruct (tableCellsSize padding innerPadding objects (Width size))
    as [[[lw cw] table]|]; [| discriminate].
  intros Hloop. apply Layout_loop_sameShape in Hloop.
  split; [symmetry; eapply Forall2_length, Hloop | exact Hloop].
Qed.

(** ** The size computation looks at shapes only *)

Lemma rowCells_sameShape (l c l' c' : CanvasObject) :
  sameShape l l' -> sameShape c c' ->
  rowCells innerPadding l c = rowCells innerPadding l' c'.
Proof.
  intros (_ & Hm & Ht) (_ & Hm' & _).
  unfold rowCells, labelCellOf, obj_MinSize. rewrite Hm, Ht, Hm'. reflexivity.
Qed.

Lemma hidden_sameShape (l c l' c' : CanvasObject) :
  sameShape l l' -> sameShape c c' ->
  negb (obj_Visible l) && negb (obj_Visible c)
    = negb (obj_Visible l') && negb (obj_Visible c').
Proof.
  intros (Hv & _) (Hv' & _). unfold obj_Visible. rewrite Hv, Hv'. reflexivity.
Qed.

Lemma countRows_loop_sameShape objects :
  forall objects', Forall2 sameShape objects objects' ->
  forall count : nat,
    countRows_loop objects count = countRows_loop objects' count.
Proof.
  revert objects.
  apply (pairs_ind (fun objects => forall objects',
    Forall2 sameShape objects objects' ->
    forall count : nat, countRows_loop objects count = countRows_loop objects' count)).
  - intros objects' HF count. inversion HF. reflexivity.
  - intros o objects' HF count. inversion HF as [|? o' ? ? Ho HF']; subst.
    inversion HF'; subst. cbn [countRows_loop].
    destruct Ho as (Hv & _). unfold obj_Visible. rewrite Hv. reflexivity.
  - intros l c rest IH objects' HF count.
    inversion HF as [|? l' ? ? Hl HF1]; subst.
    inversion HF1 as [|? c' ? rest' Hc HF2]; subst.
    rewrite !countRows_loop_cons2, (hidden_sameShape l c l' c' Hl Hc).
    destruct (negb (obj_Visible l') && negb (obj_Visible c')); apply IH, HF2.
Qed.

Lemma tableCells_loop_sameShape objects :
  forall objects', Forall2 sameShape objects objects' ->
  forall (rows row : nat) (lw cw : float32) table,
    tableCells_loop innerPadding objects rows row lw cw table
      = tableCells_loop innerPadding objects' rows row lw cw table.
Proof.
  revert objects.
  apply (pairs_ind (fun objects => forall objects',
    Forall2 sameShape objects objects' ->
    forall (rows row : nat) (lw cw : float32) table,
      tableCells_loop innerPadding objects rows row lw cw table
        = tableCells_loop innerPadding objects' rows row lw cw table)).
  - intros objects' HF. inversion HF. reflexivity.
  - intros o objects' HF rows row lw cw table.
    inversion HF as [|? o' ? ? Ho HF']; subst. inversion HF'; subst.
    cbn [tableCells_loop]. reflexivity.
  - intros l c rest IH objects' HF rows row lw cw table.
    inversion HF as [|? l' ? ? Hl HF1]; subst.
    inversion HF1 as [|? c' ? rest' Hc HF2]; subst.
    destruct (row <? rows)%nat eqn:Hrow.
    + rewrite !tableCells_loop_cons2 by exact Hrow.
      rewrite (hidden_sameShape l c l' c' Hl Hc),
              (rowCells_sameShape l c l' c' Hl Hc).
      destruct (negb (obj_Visible l') && negb (obj_Visible c')); apply IH, HF2.
    + rewrite !tableCells_loop_done by exact Hrow. reflexivity.
Qed.

Lemma tableCellsSize_sameShape objects objects' (containerWidth : float32) :
  Forall2 sameShape objects objects' ->
  tableCellsSize padding innerPadding objects containerWidth
    = tableCellsSize padding innerPadding objects' containerWidth.
Proof.
  intros HF. unfold tableCellsSize, countRows.
  rewrite (countRows_loop_sameShape objects objects' HF).
  rewrite (Forall2_length _ _ _ HF).
  destruct (countRows_loop objects' 0); [| reflexivity].
  rewrite (tableCells_loop_sameShape objects objects' HF). reflexivity.
Qed.

(** X7: the sizes [tableCellsSize] and [MinSize] compute depend on the
    objects' visibility, minimum size and type only, not on where the
    objects are or how large. *)
Theorem sizes_ignore_geometry objects objects' (containerWidth : float32) :
  Forall2 sameShape objects objects' ->
  countRows objects = countRows objects' /\
  tableCellsSize padding innerPadding objects containerWidth
    = tableCellsSize padding innerPadding objects' containerWidth /\
  MinSize padding innerPadding objects = MinSize padding innerPadding objects'.
Proof.
  intros HF. split; [apply countRows_loop_sameShape, HF |].
  split; [apply tableCellsSize_sameShape, HF |].
  unfold MinSize. rewrite (tableCellsSize_sameShape objects objects' _ HF).
  reflexivity.
Qed.

(** ** Laying out twice *)

Lemma placeLabel_again (o : CanvasObject) (lw y : float32) (r : tableRow) :
  placeLabel innerPadding (placeLabel innerPadding o lw y r) lw y r
    = placeLabel innerPadding o lw y r.
Proof. unfold placeLabel. destruct (isText o) eqn:E; cbn; rewrite E; reflexivity. Qed.

Lemma placeContent_again (o : CanvasObject) (lw cw y : float32) (r : tableRow) :
  placeContent padding innerPadding
      (placeContent padding innerPadding o lw cw y r) lw cw y r
    = placeContent padding innerPadding o lw cw y r.
Proof. unfold placeContent. destruct (isText o) eqn:E; cbn; rewrite E; reflexivity. Qed.

Lemma Layout_loop_again (lw cw : float32) table objects :
  forall (row : nat) (y : float32) out,
    Layout_loop padding innerPadding lw cw table objects row y = Some out ->
    Layout_loop padding innerPadding lw cw table out row y = Some out.
Proof.
  revert objects.
  apply (pairs_ind (fun objects => forall (row : nat) (y : float32) out,
    Layout_loop padding innerPadding lw cw table objects row y = Some out ->
    Layout_loop padding innerPadding lw cw table out row y = Some out)).
  - intros row y out [= <-]. reflexivity.
  - intros o row y out. cbn [Layout_loop].
    destruct (rowStart padding table row y) as [[y' r]|] eqn:Hs; [| discriminate].
    intros [= <-]. cbn [Layout_loop]. rewrite Hs, placeLabel_again. reflexivity.
  - intros l c rest IH row y out. cbn [Layout_loop].
    destruct (negb (obj_Visible l) && negb (obj_Visible c)) eqn:E.
    + destruct (Layout_loop padding innerPadding lw cw table rest row y)
        as [out'|] eqn:El; [| discriminate].
      intros [= <-]. cbn [Layout_loop]. rewrite E, (IH _ _ _ El). reflexivity.
    + destruct (rowStart padding table row y) as [[y' r]|] eqn:Hs; [| discriminate].
      destruct (Layout_loop padding innerPadding lw cw table rest (S row) y')
        as [out'|] eqn:El; [| discriminate].
      intros [= <-]. cbn [Layout_loop].
      rewrite placeLabel_Visible, placeContent_Visible, E, Hs, (IH _ _ _ El).
      rewrite placeLabel_again, placeContent_again. reflexivity.
Qed.

(** X8: laying out the result of [Layout] again, at the same size, changes
    nothing. *)
Theorem Layout_twice objects (size : Size) out :
  Layout padding innerPadding objects size = Some out ->
  Layout padding innerPadding out size = Some out.
Proof.
  unfold Layout.
  destruct (tableCellsSize padding innerPadding objects (Width size))
    as [[[lw cw] table]|] eqn:Ht; [| discriminate].
  intros Hloop.
  rewrite <- (tableCellsSize_sameShape objects out (Width size)
                (Layout_loop_sameShape lw cw table objects _ _ _ Hloop)), Ht.
  eapply Layout_loop_again, Hloop.
Qed.

(** ** The only panic *)

Lemma Layout_loop_odd (lw cw : float32) table (o : CanvasObject) objects :
  (length objects mod 2 = 0)%nat ->
  forall (row : nat) (y : float32),
    (row + length (shownRows objects) / 2 < length table)%nat ->
    is_Some (Layout_loop padding innerPadding lw cw table (objects ++ [o]) row y).
Proof.
  revert objects.
  apply (rows_ind (fun objects => forall (row : nat) (y : float32),
    (row + length (shownRows objects) / 2 < length table)%nat ->
    is_Some (Layout_loop padding innerPadding lw cw table (objects ++ [o]) row y))).
  - intros row y Hlt. cbn [shownRows length app Layout_loop] in *.
    destruct (rowStart_in_range padding table row y) as (y' & r & ->).
    + change (0 / 2)%nat with 0%nat in Hlt. lia.
    + eexists; reflexivity.
  - intros l c rest _ IH row y Hlt.
    change ((l :: c :: rest) ++ [o]) with (l :: c :: (rest ++ [o])).
    cbn [shownRows Layout_loop] in *.
    destruct (negb (obj_Visible l) && negb (obj_Visible c)).
    + destruct (IH row y Hlt) as [out ->]. eexists; reflexivity.
    + cbn [length] in Hlt. rewrite half_SS in Hlt.
      destruct (rowStart_in_range padding table row y ltac:(lia)) as (y' & r & ->).
      destruct (IH (S row) y' ltac:(lia)) as [out ->]. eexists; reflexivity.
Qed.

(** X9: the one way the layout can panic is the index expression of
    [countRows]: on every list, [tableCellsSize], [MinSize] and [Layout]
    return exactly when [countRows] returns.  The slice expression of
    [tableCellsSize] and the table indexing of [Layout] stay in range. *)
Theorem panics_only_in_countRows objects (containerWidth : float32) (size : Size) :
  (is_Some (tableCellsSize padding innerPadding objects containerWidth)
     <-> is_Some (countRows objects)) /\
  (is_Some (MinSize padding innerPadding objects) <-> is_Some (countRows objects)) /\
  (is_Some (Layout padding innerPadding objects size) <-> is_Some (countRows objects)).
Proof.
  destruct (even_or_odd objects) as [H | (objects' & o & -> & H)].
  - assert (Hc : is_Some (countRows objects))
      by (rewrite (countRows_even objects H); eexists; reflexivity).
    assert (Hm : is_Some (MinSize padding innerPadding objects))
      by (apply MinSize_total, H).
    assert (Ht : is_Some (tableCellsSize padding innerPadding objects containerWidth))
      by (destruct (tableCellsSize_total padding innerPadding objects containerWidth H)
            as (? & ? & ? & -> & _); eexists; reflexivity).
    assert (Hl : is_Some (Layout padding innerPadding objects size)).
    { unfold Layout.
      destruct (tableCellsSize_total padding innerPadding objects (Width size) H)
        as (lw & cw & table & -> & Hlen).
      destruct (Layout_loop_shownRows padding innerPadding lw cw table objects H
                  0%nat (f32 0) ltac:(lia)) as (out & -> & _).
      eexists; reflexivity. }
    repeat split; intros _; assumption.
  - unfold MinSize, Layout.
    rewrite !(tableCellsSize_odd padding innerPadding objects' o _ H).
    unfold countRows. rewrite (countRows_loop_odd objects' o H 0%nat).
    destruct (obj_Visible o).
    + assert (Hl : is_Some (Layout_loop padding innerPadding (f32 0) (f32 0)
                     (replicate (S (length (shownRows objects') / 2)) zeroRow)
                     (objects' ++ [o]) 0 (f32 0))).
      { apply Layout_loop_odd; [exact H |]. rewrite length_replicate. lia. }
      repeat split; intros _; try (eexists; reflexivity); exact Hl.
    + repeat split; intros [? Hx]; discriminate Hx.
Qed.

(** ** Where a shown row goes *)

Lemma Layout_loop_row (lw cw : float32) table objects :
  forall (row : nat) (y : float32) out,
    Layout_loop padding innerPadding lw cw table objects row y = Some out ->
    forall (i : nat) (l c : CanvasObject),
      (i mod 2 = 0)%nat ->
      objects !! i = Some l -> objects !! S i = Some c ->
      negb (obj_Visible l) && negb (obj_Visible c) = false ->
      exists y' r,
        out !! i = Some (placeLabel innerPadding l lw y' r) /\
        out !! S i = Some (placeContent padding innerPadding c lw cw y' r).
Proof.
  revert objects.
  apply (pairs_ind (fun objects => forall (row : nat) (y : float32) out,
    Layout_loop padding innerPadding lw cw table objects row y = Some out ->
    forall (i : nat) (l c : CanvasObject),
      (i mod 2 = 0)%nat ->
      objects !! i = Some l -> objects !! S i = Some c ->
      negb (obj_Visible l) && negb (obj_Visible c) = false ->
      exists y' r,
        out !! i = Some (placeLabel innerPadding l lw y' r) /\
        out !! S i = Some (placeContent padding innerPadding c lw cw y' r))).
  - intros row y out _ i l c _ Hl. discriminate Hl.
  - intros o row y out _ [|i] l c _ Hl Hc; [discriminate Hc | discriminate Hl].
  - intros l0 c0 rest IH row y out Hloop i l c Hi Hl Hc Hshown.
    cbn [Layout_loop] in Hloop.
    assert (Hnext : forall j, (S (S j) mod 2 = 0)%nat -> (j mod 2 = 0)%nat).
    { intros j Hj. replace (S (S j)) with (j + 1 * 2)%nat in Hj by lia.
      rewrite Nat.Div0.mod_add in Hj. exact Hj. }
    destruct (negb (obj_Visible l0) && negb (obj_Visible c0)) eqn:E.
    + destruct (Layout_loop padding innerPadding lw cw table rest row y)
        as [out'|] eqn:El; [| discriminate].
      injection Hloop as <-.
      destruct i as [|[|i]].
      * injection Hl as <-. injection Hc as <-. congruence.
      * discriminate Hi.
      * apply (IH _ _ _ El i l c (Hnext i Hi) Hl Hc Hshown).
    + destruct (rowStart padding table row y) as [[y' r]|]; [| discriminate].
      destruct (Layout_loop padding innerPadding lw cw table rest (S row) y')
        as [out'|] eqn:El; [| discriminate].
      injection Hloop as <-.
      destruct i as [|[|i]].
      * injection Hl as <-. injection Hc as <-. exists y', r. split; reflexivity.
      * discriminate Hi.
      * apply (IH _ _ _ El i l c (Hnext i Hi) Hl Hc Hshown).
Qed.

(** X10: in the result of [Layout], the two objects of a shown row sit on
    one line.  When neither is a text, the label is at x = 0 with the label
    column's width, the content at x = padding + label width with the
    content column's width, both at the same y and of the same height. *)
Theorem Layout_row_aligned objects (container : Size) (lw cw : float32) table out
    (i : nat) (l c : CanvasObject) :
  tableCellsSize padding innerPadding objects (Width container) = Some (lw, cw, table) ->
  Layout padding innerPadding objects container = Some out ->
  (i mod 2 = 0)%nat ->
  objects !! i = Some l -> objects !! S i = Some c ->
  negb (obj_Visible l) && negb (obj_Visible c) = false ->
  isText l = false -> isText c = false ->
  exists (l' c' : CanvasObject) (y h : float32),
    out !! i = Some l' /\ out !! S i = Some c' /\
    position l' = NewPos (f32 0) y /\
    position c' = NewPos (fadd padding lw) y /\
    size l' = NewSize lw h /\
    size c' = NewSize cw h.
Proof.
  intros Ht Hlay Hi Hl Hc Hshown Htl Htc. unfold Layout in Hlay. rewrite Ht in Hlay.
  destruct (Layout_loop_row lw cw table objects _ _ _ Hlay i l c Hi Hl Hc Hshown)
    as (y & r & Hol & Hoc).
  exists (placeLabel innerPadding l lw y r),
         (placeContent padding innerPadding c lw cw y r), y, (Height (fst r)).
  split; [exact Hol |]. split; [exact Hoc |].
  unfold placeLabel, placeContent. rewrite Htl, Htc. cbn.
  repeat split; reflexivity.
Qed.

End LayoutMore.

Lemma countRows_odd_witness :
  Layout.countRows Layout.oddShown = Some 2%nat /\
  Layout.countRows Layout.oddHidden = None.
Proof.
  split.
  - exact (countRows_odd [Layout.box true 40 10; Layout.box true 60 20]
             (Layout.box true 40 10) eq_refl).
  - exact (countRows_odd [Layout.box true 40 10; Layout.box true 60 20]
             (Layout.box false 40 10) eq_refl).
Defined.

Lemma tableCellsSize_odd_visible_witness :
  Layout.tableCellsSize (Layout.f32 4) (Layout.f32 8) Layout.oddShown (Layout.f32 300)
    = Some (Layout.f32 0, Layout.f32 0, [Layout.zeroRow; Layout.zeroRow]).
Proof.
  exact (proj1 (tableCellsSize_odd_visible (Layout.f32 4) (Layout.f32 8)
                  [Layout.box true 40 10; Layout.box true 60 20]
                  (Layout.box true 40 10) (Layout.f32 300) eq_refl eq_refl)).
Defined.

Lemma tableCellsSize_cells_witness :
  Layout.tableCellsSize (Layout.f32 4) (Layout.f32 8) Layout.formText (Layout.f32 0)
    = Some (Layout.f32 56, Layout.f32 70,
            [(Layout.NewSize (Layout.f32 56) (Layout.f32 20),
              Layout.NewSize (Layout.f32 60) (Layout.f32 20));
             (Layout.NewSize (Layout.f32 50) (Layout.f32 30),
              Layout.NewSize (Layout.f32 70) (Layout.f32 30))]).
Proof.
  exact (tableCellsSize_cells (Layout.f32 4) (Layout.f32 8) Layout.formText
           (Layout.f32 0) eq_refl).
Defined.

Lemma table_rows_level_witness :
  Forall (fun r => Layout.Height (fst r) = Layout.Height (snd r))
    [(Layout.NewSize (Layout.f32 56) (Layout.f32 20),
      Layout.NewSize (Layout.f32 60) (Layout.f32 20));
     (Layout.NewSize (Layout.f32 50) (Layout.f32 30),
      Layout.NewSize (Layout.f32 70) (Layout.f32 30))].
Proof.
  exact (table_rows_level (Layout.f32 4) (Layout.f32 8) Layout.formText
           (Layout.f32 0) (Layout.f32 56) (Layout.f32 70) _ eq_refl eq_refl).
Defined.

Lemma nothing_shown_witness :
  Layout.MinSize (Layout.f32 4) (Layout.f32 8) Layout.formHidden
    = Some (Layout.NewSize (Layout.f32 0) (Layout.f32 0)) /\
  Layout.Layout (Layout.f32 4) (Layout.f32 8) Layout.formHidden
      (Layout.NewSize (Layout.f32 300) (Layout.f32 200))
    = Some Layout.formHidden.
Proof.
  exact (nothing_shown (Layout.f32 4) (Layout.f32 8) Layout.formHidden
           (Layout.NewSize (Layout.f32 300) (Layout.f32 200)) eq_refl eq_refl).
Defined.

(* ===================================================================== *)
(** * Further properties of app/preferences.go *)
(* ===================================================================== *)

Section PrefsMore.

Import Prefs.

Context {value content : Type}.
Variable emptyContent : content.
Variable encode : gmap string value -> option content.
Variable decode : content -> option (gmap string value).
Variable Dir : string -> string.

Implicit Types (w : world value content) (p : preferences value)
  (d : fs content) (path : string).

Local Abbreviation saveToFile := (Prefs.saveToFile emptyContent encode Dir).
Local Abbreviation save := (Prefs.save emptyContent encode Dir).
Local Abbreviation changeListener := (Prefs.changeListener emptyContent encode Dir).
Local Abbreviation FireChange := (Prefs.FireChange emptyContent encode Dir).
Local Abbreviation resetFire := (Prefs.resetFire emptyContent encode Dir).
Local Abbreviation loadFromFile := (Prefs.loadFromFile emptyContent encode decode Dir).
Local Abbreviation notify := (Prefs.notify emptyContent encode Dir).

Local Ltac name_fired_in w1 :=
  match goal with
  | |- context [Prefs.FireChange _ _ _ ?x] => set (w1 := x)
  end.

(** ** saveToFile, outcome by outcome *)

(** X11: every call of [saveToFile], failed or not, sets the suspend guard
    and changes nothing else in the store (the map, the loading flag and
    the pending counter stay), starts exactly one reset timer, and counts
    as one save. *)
Theorem saveToFile_always_suspends w path :
  prefs (fst (saveToFile w path)) = set_suspendChange (prefs w) true /\
  timers (fst (saveToFile w path)) = S (timers w) /\
  saveCount (fst (saveToFile w path)) = S (saveCount w) /\
  (writeCount (fst (saveToFile w path)) <= S (writeCount w))%nat.
Proof.
  destruct (saveToFile_effect emptyContent encode Dir w path) as (Hp & Ht & _).
  repeat split; [exact Hp | exact Ht | apply saveToFile_saveCount
                | apply saveToFile_writeCount].
Qed.

(** X12: [saveToFile] returns nil exactly when creating the directory,
    creating the file, encoding the map, writing and syncing all succeed.
    A failed [os.Create] therefore never ends in a successful save, not
    even through the [os.Open] fallback taken on an [IsExist] error: that
    handle is read-only and the encoder cannot write to it. *)
Theorem saveToFile_nil_iff w path :
  snd (saveToFile w path) = None <->
  mkdirAllErr (disk w) (Dir path) = None /\
  createErr (disk w) path = None /\
  is_Some (encode (values (prefs w))) /\
  writeErr (disk w) path = None /\
  syncErr (disk w) path = None.
Proof.
  unfold Prefs.saveToFile, encodeAndSync, os_MkdirAll, os_Create, os_Open,
    file_Write, file_Sync.
  cbn [disk emit with_prefs prefs].
  destruct (mkdirAllErr (disk w) (Dir path)); cbn;
    [split; [discriminate | intros (H & _); discriminate H] |].
  destruct (createErr (disk w) path) as [e|]; cbn.
  - split; [| intros (_ & H & _); discriminate H].
    destruct (IsExist e); cbn; [| discriminate].
    destruct (openErr (disk w) path); cbn; [discriminate |].
    destruct (files (disk w) !! path); cbn; [| discriminate].
    destruct (encode (values (prefs w))); cbn; discriminate.
  - destruct (encode (values (prefs w))) as [c|]; cbn;
      [| split; [discriminate | intros (_ & _ & [? H] & _); discriminate H]].
    destruct (writeErr (disk w) path); cbn;
      [split; [discriminate | intros (_ & _ & _ & H & _); discriminate H] |].
    destruct (syncErr (disk w) path); cbn;
      [split; [discriminate | intros (_ & _ & _ & _ & H); discriminate H] |].
    split; [intros _ | reflexivity]. repeat split. eexists; reflexivity.
Qed.

(** X13: a [saveToFile] that returns nil has replaced the contents of its
    own file by the encoded map, added the parent directory, and left
    every other file as it was. *)
Theorem saveToFile_touches_own_file w path :
  snd (saveToFile w path) = None ->
  exists c,
    encode (values (prefs w)) = Some c /\
    files (disk (fst (saveToFile w path))) = <[path := c]> (files (disk w)) /\
    dirs (disk (fst (saveToFile w path))) = {[Dir path]} ∪ dirs (disk w) /\
    forall other, other <> path ->
      files (disk (fst (saveToFile w path))) !! other = files (disk w) !! other.
Proof.
  unfold Prefs.saveToFile, encodeAndSync, os_MkdirAll, os_Create, os_Open,
    file_Write, file_Sync.
  cbn [disk emit with_prefs prefs].
  destruct (mkdirAllErr (disk w) (Dir path)); cbn; [discriminate |].
  destruct (createErr (disk w) path) as [e|]; cbn.
  - destruct (IsExist e); cbn; [| discriminate].
    destruct (openErr (disk w) path); cbn; [discriminate |].
    destruct (files (disk w) !! path); cbn; [| discriminate].
    destruct (encode (values (prefs w))); cbn; discriminate.
  - destruct (encode (values (prefs w))) as [c|]; cbn; [| discriminate].
    destruct (writeErr (disk w) path); cbn; [discriminate |].
    intros _. exists c. rewrite insert_insert_eq. repeat split.
    intros other Hne. apply lookup_insert_ne. congruence.
Qed.

(** X14: when the directory cannot be created, or the file cannot be
    created for a reason other than [IsExist], [saveToFile] returns that
    error and no file is touched. *)
Theorem saveToFile_fails_early w path (err : error) :
  (mkdirAllErr (disk w) (Dir path) = Some err ->
     snd (saveToFile w path) = Some err /\
     disk (fst (saveToFile w path)) = disk w) /\
  (mkdirAllErr (disk w) (Dir path) = None ->
   createErr (disk w) path = Some err -> IsExist err = false ->
     snd (saveToFile w path) = Some err /\
     files (disk (fst (saveToFile w path))) = files (disk w)).
Proof.
  unfold Prefs.saveToFile, os_MkdirAll, os_Create.
  cbn [disk emit with_prefs prefs]. split.
  - intros ->. cbn. split; reflexivity.
  - intros -> Hc Hx. cbn. rewrite Hc. cbn. rewrite Hx. cbn. split; reflexivity.
Qed.

(** X15: the file is truncated before the map is encoded: when the file
    can be created but the map has no encoding, [saveToFile] returns the
    encoding error and leaves the file empty, whatever it held before. *)
Theorem saveToFile_encode_failure_truncates w path :
  mkdirAllErr (disk w) (Dir path) = None ->
  createErr (disk w) path = None ->
  encode (values (prefs w)) = None ->
  snd (saveToFile w path) = Some ErrEncode /\
  files (disk (fst (saveToFile w path))) !! path = Some emptyContent /\
  writeCount (fst (saveToFile w path)) = writeCount w.
Proof.
  intros Hm Hc He.
  unfold Prefs.saveToFile, encodeAndSync, os_MkdirAll, os_Create, writeCount.
  cbn [disk emit with_prefs prefs]. rewrite Hm. cbn. rewrite Hc. cbn.
  rewrite He. cbn. split; [reflexivity |].
  split; [apply lookup_insert_eq |].
  rewrite List.filter_app, length_app. cbn. unfold count. lia.
Qed.

(** ** The whole debounce cycle *)

Lemma wrap_int_small (z : Z) : - 2 ^ 63 <= z < 2 ^ 63 -> wrap_int z = z.
Proof.
  intros H. unfold wrap_int.
  change (2 ^ 64) with 18446744073709551616.
  change (2 ^ 63) with 9223372036854775808 in *.
  rewrite Z.mod_small by lia. lia.
Qed.

Lemma pending_count (n : nat) (z : Z) :
  0 <= z -> z + Z.of_nat n < 2 ^ 63 ->
  Nat.iter n (fun z => wrap_int (z + 1)) z = z + Z.of_nat n.
Proof.
  change (2 ^ 63) with 9223372036854775808.
  induction n as [|n IH]; intros Hz Hn; [cbn; lia |].
  rewrite Nat.iter_succ. rewrite IH by lia. rewrite wrap_int_small; [lia |].
  change (2 ^ 63) with 9223372036854775808. lia.
Qed.

Lemma notify_flags (n : nat) : forall w,
  suspendChange (prefs w) = true ->
  loadingInProgress (prefs (notify n w)) = loadingInProgress (prefs w) /\
  hasListener (prefs (notify n w)) = hasListener (prefs w).
Proof.
  induction n as [|n IH]; intros w Hs; [split; reflexivity |].
  destruct (FireChange_suspended emptyContent encode Dir w Hs)
    as (Hs1 & Hl1 & Hh1 & _).
  cbn [Prefs.notify]. destruct (IH (FireChange w) Hs1) as [-> ->]. auto.
Qed.

(** The reset goroutine with changes pending and no load in progress:
    the guard is cleared, the counter zeroed, and the change it fires is
    one save, which sets the guard and starts the next timer. *)
Lemma resetFire_pending w (k : nat) :
  timers w = S k -> hasListener (prefs w) = true ->
  loadingInProgress (prefs w) = false ->
  0 < numSuspendedChanges (prefs w) ->
  saveCount (resetFire w) = S (saveCount w) /\
  numSuspendedChanges (prefs (resetFire w)) = 0 /\
  suspendChange (prefs (resetFire w)) = true /\
  values (prefs (resetFire w)) = values (prefs w) /\
  timers (resetFire w) = S k.
Proof.
  intros Ht Hh Hl Hn. unfold Prefs.resetFire. rewrite Ht.
  cbn [with_timers prefs with_prefs].
  apply Z.ltb_lt in Hn. rewrite Hn.
  name_fired_in w1.
  assert (HF : FireChange w1 = changeListener w1)
    by (unfold Prefs.FireChange; subst w1; cbn; rewrite Hh; reflexivity).
  destruct (changeListener_saves emptyContent encode Dir w1)
    as (Hp & Ht1 & Hsc & _); [reflexivity | exact Hl |].
  rewrite HF, Hp, Hsc, Ht1. repeat split.
Qed.

(** X16: a burst of [n + 1] change notifications on a store at rest,
    followed by the expiry of the reset timer.  With [n = 0] the cycle is
    one save and ends with the guard cleared and no timer left.  With
    [n > 0] the [n] notifications inside the window were counted, the
    expiry fires one change for all of them, and the cycle is two saves;
    it ends inside a new window, with the counter back at zero and one
    timer asleep. *)
Theorem debounce_cycle w (n : nat) :
  hasListener (prefs w) = true ->
  suspendChange (prefs w) = false -> loadingInProgress (prefs w) = false ->
  numSuspendedChanges (prefs w) = 0 -> timers w = 0%nat ->
  Z.of_nat n < 2 ^ 63 ->
  numSuspendedChanges (prefs (notify (S n) w)) = Z.of_nat n /\
  (n = 0%nat ->
     saveCount (resetFire (notify (S n) w)) = S (saveCount w) /\
     suspendChange (prefs (resetFire (notify (S n) w))) = false /\
     timers (resetFire (notify (S n) w)) = 0%nat) /\
  ((0 < n)%nat ->
     saveCount (resetFire (notify (S n) w)) = S (S (saveCount w)) /\
     suspendChange (prefs (resetFire (notify (S n) w))) = true /\
     numSuspendedChanges (prefs (resetFire (notify (S n) w))) = 0 /\
     timers (resetFire (notify (S n) w)) = 1%nat).
Proof.
  intros Hh Hs Hl Hz Ht Hn. cbn [Prefs.notify].
  assert (HF : FireChange w = changeListener w)
    by (unfold Prefs.FireChange; rewrite Hh; reflexivity).
  destruct (changeListener_saves emptyContent encode Dir w Hs Hl)
    as (Hp & Ht1 & Hsc & _).
  rewrite <- HF in *.
  assert (Hs1 : suspendChange (prefs (FireChange w)) = true)
    by (rewrite Hp; reflexivity).
  destruct (notify_suspended emptyContent encode Dir n (FireChange w) Hs1)
    as (Hs2 & Hv2 & Hn2 & Hd2 & Ht2 & Hsc2 & _).
  destruct (notify_flags n (FireChange w) Hs1) as (Hl2 & Hh2).
  rewrite Hp in Hn2, Hl2, Hh2.
  cbn [hasListener loadingInProgress numSuspendedChanges set_suspendChange]
    in Hn2, Hl2, Hh2.
  rewrite Hh, Hz, (pending_count n 0) in Hn2 by lia.
  rewrite Z.add_0_l in Hn2.
  split; [exact Hn2 |]. split.
  - intros ->. cbn [Z.of_nat] in Hn2.
    destruct (resetFire_idle emptyContent encode Dir
                (notify 0 (FireChange w)) 0%nat) as (Hr1 & Hr2 & _).
    + rewrite Ht2, Ht1, Ht. reflexivity.
    + exact Hn2.
    + split; [rewrite Hr1, Hsc2, Hsc; reflexivity |].
      split; [exact Hr2 |].
      unfold Prefs.resetFire. rewrite Ht2, Ht1, Ht.
      cbn [with_timers prefs]. rewrite Hn2. reflexivity.
  - intros Hpos.
    destruct (resetFire_pending (notify n (FireChange w)) 0%nat)
      as (Hr1 & Hr2 & Hr3 & _ & Hr5).
    + rewrite Ht2, Ht1, Ht. reflexivity.
    + rewrite Hh2. exact Hh.
    + rewrite Hl2. exact Hl.
    + rewrite Hn2. lia.
    + split; [rewrite Hr1, Hsc2, Hsc; reflexivity |].
      split; [exact Hr3 |]. split; [exact Hr2 | exact Hr5].
Qed.

(** X17: a store that registered no listener (an app without unique ID,
    see [newPreferences]) never saves on its own: change notifications and
    timer expiries leave the process as it is, up to the timer count. *)
Theorem no_listener_no_save w (n : nat) :
  hasListener (prefs w) = false ->
  notify n w = w /\
  saveCount (resetFire w) = saveCount w /\
  disk (resetFire w) = disk w.
Proof.
  intros Hh. split.
  - induction n as [|n IH]; [reflexivity |].
    cbn [Prefs.notify]. unfold Prefs.FireChange at 1. rewrite Hh. exact IH.
  - unfold Prefs.resetFire, Prefs.FireChange.
    destruct (timers w); [split; reflexivity |].
    cbn [with_timers with_prefs prefs hasListener set_numSuspendedChanges
         set_suspendChange].
    rewrite Hh. destruct (0 <? _); split; reflexivity.
Qed.

(** ** Loading, outcome by outcome *)

(** The store after [loadFromFile] on a file that opens. *)
Lemma loadFromFile_present_store w path (h : handle) :
  os_Open (disk w) path = inr h ->
  loadingInProgress (prefs (fst (loadFromFile w path))) = false /\
  suspendChange (prefs (fst (loadFromFile w path))) = suspendChange (prefs w) /\
  hasListener (prefs (fst (loadFromFile w path))) = hasListener (prefs w) /\
  numSuspendedChanges (prefs (fst (loadFromFile w path)))
    = (if hasListener (prefs w) && suspendChange (prefs w)
       then wrap_int (numSuspendedChanges (prefs w) + 1)
       else numSuspendedChanges (prefs w)) /\
  timers (fst (loadFromFile w path)) = timers w /\
  disk (fst (loadFromFile w path)) = disk w.
Proof.
  intros Ho. unfold Prefs.loadFromFile. rewrite Ho.
  cbn [with_prefs disk prefs].
  assert (Hfire : forall w1,
    loadingInProgress (prefs w1) = true ->
    suspendChange (prefs (FireChange w1)) = suspendChange (prefs w1) /\
    hasListener (prefs (FireChange w1)) = hasListener (prefs w1) /\
    numSuspendedChanges (prefs (FireChange w1))
      = (if hasListener (prefs w1) && suspendChange (prefs w1)
         then wrap_int (numSuspendedChanges (prefs w1) + 1)
         else numSuspendedChanges (prefs w1)) /\
    timers (FireChange w1) = timers w1 /\
    disk (FireChange w1) = disk w1).
  { intros w1 Hl1. unfold Prefs.FireChange.
    destruct (hasListener (prefs w1)) eqn:Hh; [| repeat split; auto].
    destruct (suspendChange (prefs w1)) eqn:Hs.
    - destruct (changeListener_suspended emptyContent encode Dir w1 Hs)
        as (Hp & Hd & Ht & _).
      rewrite Hp, Hd, Ht. cbn. rewrite ?Hs, ?Hh. repeat split; auto.
    - destruct (changeListener_loading emptyContent encode Dir w1 Hs Hl1)
        as (Hp & Hd & Ht & _).
      rewrite Hp, Hd, Ht, ?Hs, ?Hh. repeat split; auto. }
  destruct (decode (file_Read emptyContent (disk w) h));
    name_fired_in w1;
    destruct (Hfire w1 eq_refl) as (Hs & Hh & Hn & Ht & Hd);
    cbn [fst with_prefs prefs set_loadingInProgress loadingInProgress
         suspendChange hasListener numSuspendedChanges timers disk];
    rewrite Hs, Hh, Hn, Ht, Hd; subst w1; cbn; repeat split.
Qed.

(** X18: [loadFromFile] releases the loading flag on every path: if the
    flag was clear before the call it is clear after it, whether the file
    was absent, unreadable, malformed or loaded. *)
Theorem loadFromFile_releases_flag w path :
  loadingInProgress (prefs w) = false ->
  loadingInProgress (prefs (fst (loadFromFile w path))) = false.
Proof.
  intros Hl. destruct (os_Open (disk w) path) as [err | h] eqn:Ho.
  - unfold Prefs.loadFromFile, os_MkdirAll. rewrite Ho.
    destruct (IsNotExist err);
      [destruct (mkdirAllErr (disk w) (Dir path)) |]; exact Hl.
  - apply (loadFromFile_present_store w path h Ho).
Qed.

(** X19: [loadFromFile] on a file that opens and decodes merges the file
    into the map: a key of the file takes the file's value, every other key
    keeps the value it had.  The error returned is that of closing the
    file, so a failed close is reported although the map was loaded. *)
Theorem loadFromFile_merges w path (h : handle) (m : gmap string value) :
  os_Open (disk w) path = inr h ->
  decode (file_Read emptyContent (disk w) h) = Some m ->
  (forall k : string,
     values (prefs (fst (loadFromFile w path))) !! k
       = match m !! k with
         | Some v => Some v
         | None => values (prefs w) !! k
         end) /\
  snd (loadFromFile w path) = file_Close (disk w) h.
Proof.
  intros Ho Hd.
  destruct (loadFromFile_present emptyContent encode decode Dir w path h Ho)
    as (Hv & He).
  rewrite Hd in Hv, He. split; [| exact He].
  intros k. rewrite Hv, lookup_union.
  destruct (m !! k); destruct (values (prefs w) !! k); reflexivity.
Qed.

(** X20: [loadFromFile] on a file that opens but does not decode returns
    the decoding error (a failed close does not replace it), and leaves the
    map, the guard and the disk as they were. *)
Theorem loadFromFile_malformed w path (h : handle) :
  os_Open (disk w) path = inr h ->
  decode (file_Read emptyContent (disk w) h) = None ->
  snd (loadFromFile w path) = Some ErrDecode /\
  values (prefs (fst (loadFromFile w path))) = values (prefs w) /\
  suspendChange (prefs (fst (loadFromFile w path))) = suspendChange (prefs w) /\
  loadingInProgress (prefs (fst (loadFromFile w path))) = false /\
  disk (fst (loadFromFile w path)) = disk w.
Proof.
  intros Ho Hd.
  destruct (loadFromFile_present emptyContent encode decode Dir w path h Ho)
    as (Hv & He).
  destruct (loadFromFile_present_store w path h Ho) as (Hl & Hs & _ & _ & _ & Hdisk).
  rewrite Hd in Hv, He. repeat split; assumption.
Qed.

(** X21: a load inside a suspend window is not without a save in the end.
    Its change notification is ignored but counted as pending, so when the
    window's reset timer expires the pending change is fired and, with no
    load in progress any more, saved. *)
Theorem load_in_window_saves_later w path (h : handle) (k : nat) :
  os_Open (disk w) path = inr h ->
  hasListener (prefs w) = true -> suspendChange (prefs w) = true ->
  timers w = S k ->
  0 <= numSuspendedChanges (prefs w) < 2 ^ 63 - 1 ->
  numSuspendedChanges (prefs (fst (loadFromFile w path)))
    = numSuspendedChanges (prefs w) + 1 /\
  saveCount (resetFire (fst (loadFromFile w path)))
    = S (saveCount (fst (loadFromFile w path))).
Proof.
  intros Ho Hh Hs Ht Hn.
  destruct (loadFromFile_present_store w path h Ho)
    as (Hl1 & Hs1 & Hh1 & Hn1 & Ht1 & _).
  rewrite Hh, Hs in Hn1. cbn [andb] in Hn1.
  assert (Hrange : - 2 ^ 63 <= numSuspendedChanges (prefs w) + 1 < 2 ^ 63).
  { change (2 ^ 63) with 9223372036854775808 in *. lia. }
  rewrite (wrap_int_small _ Hrange) in Hn1.
  split; [exact Hn1 |].
  apply (resetFire_pending (fst (loadFromFile w path)) k).
  - rewrite Ht1. exact Ht.
  - rewrite Hh1. exact Hh.
  - exact Hl1.
  - rewrite Hn1. lia.
Qed.

(** ** A burst, then the expiry of its window *)








(** ** A load, then the expiry of the window it fell into *)


End PrefsMore.

(* ===================================================================== *)
(** * Further properties of theme/color.go *)
(* ===================================================================== *)

Section ThemeMore.

Import Theme.

Context {Widget : Type}.
Implicit Types (e : env Widget) (n : ThemeColorName) (v : ThemeVariant).

(** X22: every accessor that goes through [safeColorLookup], and [Color]
    for every name, returns a colour and not nil, whatever the theme
    answers; [safeColorLookup] hands a defined colour through unlogged, and
    logs one error exactly when the theme's answer is nil. *)
Theorem safe_accessors_never_nil e n v :
  Forall (fun f => fst (f e) <> None) safeAccessors /\
  fst (Color e n) <> None /\
  fst (safeColorLookup e n v)
    = Some (default (fallbackColor e) (Color_of (Current e) n v)) /\
  snd (safeColorLookup e n v)
    = match Color_of (Current e) n v with
      | Some _ => []
      | None => ["Loaded theme returned nil color"%string]
      end.
Proof.
  split; [apply safeAccessors_not_nil |].
  split; [apply safeColorLookup_not_nil |].
  unfold safeColorLookup.
  destruct (Color_of (Current e) n v); split; reflexivity.
Qed.

End ThemeMore.

(** X23: for every name, the foreground colour of a named primary colour
    is one of the two background colours, light or dark, and differs from
    the primary colour itself; both colours are opaque. *)
Theorem PrimaryForeground_contrast (name : string) :
  (Theme.PrimaryForegroundColorNamed name = Some Theme.colorLightBackground \/
   Theme.PrimaryForegroundColorNamed name = Some Theme.colorDarkBackground) /\
  Theme.PrimaryForegroundColorNamed name <> Theme.PrimaryColorNamed name /\
  (Theme.A <$> Theme.PrimaryColorNamed name) = Some 0xff /\
  (Theme.A <$> Theme.PrimaryForegroundColorNamed name) = Some 0xff.
Proof.
  unfold Theme.PrimaryForegroundColorNamed, Theme.PrimaryColorNamed.
  repeat (destruct (String.eqb name _);
          [split; [auto | split; [discriminate | split; reflexivity]] |]).
  split; [auto | split; [discriminate | split; reflexivity]].
Qed.

(** ** The further properties at concrete inputs *)

Lemma Layout_changes_geometry_only_witness :
  length Layout.form3Laid = length Layout.form3 /\
  Forall2 Layout.sameShape Layout.form3 Layout.form3Laid.
Proof.
  exact (Layout_changes_geometry_only (Layout.f32 4) (Layout.f32 8)
           Layout.form3 Layout.container300 Layout.form3Laid eq_refl).
Defined.

Lemma sizes_ignore_geometry_witness :
  Layout.MinSize (Layout.f32 4) (Layout.f32 8) Layout.form3
    = Layout.MinSize (Layout.f32 4) (Layout.f32 8) Layout.form3Laid.
Proof.
  assert (H : Forall2 Layout.sameShape Layout.form3 Layout.form3Laid)
    by (repeat constructor).
  exact (proj2 (proj2 (sizes_ignore_geometry (Layout.f32 4) (Layout.f32 8)
                         Layout.form3 Layout.form3Laid (Layout.f32 0) H))).
Defined.

Lemma Layout_twice_witness :
  Layout.Layout (Layout.f32 4) (Layout.f32 8) Layout.form3Laid Layout.container300
    = Some Layout.form3Laid.
Proof.
  exact (Layout_twice (Layout.f32 4) (Layout.f32 8) Layout.form3
           Layout.container300 Layout.form3Laid eq_refl).
Defined.

Lemma Layout_row_aligned_witness :
  exists (l' c' : Layout.CanvasObject) (y h : Layout.float32),
    Layout.form3Laid !! 0%nat = Some l' /\ Layout.form3Laid !! 1%nat = Some c' /\
    Layout.position l' = Layout.NewPos (Layout.f32 0) y /\
    Layout.position c' = Layout.NewPos (Layout.fadd (Layout.f32 4) (Layout.f32 40)) y /\
    Layout.size l' = Layout.NewSize (Layout.f32 40) h /\
    Layout.size c' = Layout.NewSize (Layout.f32 256) h.
Proof.
  exact (Layout_row_aligned (Layout.f32 4) (Layout.f32 8) Layout.form3
           Layout.container300 (Layout.f32 40) (Layout.f32 256)
           [(Layout.NewSize (Layout.f32 40) (Layout.f32 20),
             Layout.NewSize (Layout.f32 60) (Layout.f32 20));
            (Layout.NewSize (Layout.f32 40) (Layout.f32 9),
             Layout.NewSize (Layout.f32 60) (Layout.f32 9))]
           Layout.form3Laid 0%nat
           (Layout.box true 40 10) (Layout.box true 60 20)
           eq_refl eq_refl eq_refl eq_refl eq_refl eq_refl eq_refl eq_refl).
Defined.

Lemma saveToFile_touches_own_file_witness :
  exists c,
    Prefs.docEncode Prefs.demoValues = Some c /\
    Prefs.files (Prefs.disk (fst (Prefs.saveToFile [] Prefs.docEncode Prefs.cfgDir
                                    (Prefs.onDisk Prefs.oldDisk) Prefs.cfgPath)))
      = <[Prefs.cfgPath := c]> (Prefs.files Prefs.oldDisk).
Proof.
  destruct (saveToFile_touches_own_file [] Prefs.docEncode Prefs.cfgDir
              (Prefs.onDisk Prefs.oldDisk) Prefs.cfgPath eq_refl)
    as (c & He & Hf & _).
  exists c. split; [exact He | exact Hf].
Defined.

Lemma saveToFile_fails_early_witness :
  snd (Prefs.saveToFile [] Prefs.docEncode Prefs.cfgDir
         (Prefs.onDisk Prefs.readOnlyDisk) Prefs.cfgPath) = Some Prefs.ErrPermission /\
  snd (Prefs.saveToFile [] Prefs.docEncode Prefs.cfgDir
         (Prefs.onDisk Prefs.createDeniedDisk) Prefs.cfgPath) = Some Prefs.ErrPermission /\
  Prefs.files (Prefs.disk (fst (Prefs.saveToFile [] Prefs.docEncode Prefs.cfgDir
                                  (Prefs.onDisk Prefs.createDeniedDisk) Prefs.cfgPath)))
    = Prefs.files Prefs.createDeniedDisk.
Proof.
  destruct (saveToFile_fails_early [] Prefs.docEncode Prefs.cfgDir
              (Prefs.onDisk Prefs.readOnlyDisk) Prefs.cfgPath Prefs.ErrPermission)
    as [H1 _].
  destruct (saveToFile_fails_early [] Prefs.docEncode Prefs.cfgDir
              (Prefs.onDisk Prefs.createDeniedDisk) Prefs.cfgPath Prefs.ErrPermission)
    as [_ H2].
  split; [exact (proj1 (H1 eq_refl)) |]. exact (H2 eq_refl eq_refl eq_refl).
Defined.

Lemma saveToFile_encode_failure_truncates_witness :
  snd (Prefs.saveToFile [] Prefs.pickyEncode Prefs.cfgDir
         (Prefs.onDisk Prefs.oldDisk) Prefs.cfgPath) = Some Prefs.ErrEncode /\
  Prefs.files (Prefs.disk (fst (Prefs.saveToFile [] Prefs.pickyEncode Prefs.cfgDir
                                  (Prefs.onDisk Prefs.oldDisk) Prefs.cfgPath)))
    !! Prefs.cfgPath = Some [].
Proof.
  destruct (saveToFile_encode_failure_truncates [] Prefs.pickyEncode Prefs.cfgDir
              (Prefs.onDisk Prefs.oldDisk) Prefs.cfgPath eq_refl eq_refl eq_refl)
    as (H1 & H2 & _).
  split; [exact H1 | exact H2].
Defined.

Lemma debounce_cycle_witness :
  Prefs.saveCount (Prefs.resetFire [] Prefs.docEncode Prefs.cfgDir
                     (Prefs.notify [] Prefs.docEncode Prefs.cfgDir 1 Prefs.demoWorld))
    = 1%nat /\
  Prefs.saveCount (Prefs.resetFire [] Prefs.docEncode Prefs.cfgDir
                     (Prefs.notify [] Prefs.docEncode Prefs.cfgDir 4 Prefs.demoWorld))
    = 2%nat.
Proof.
  destruct (debounce_cycle [] Prefs.docEncode Prefs.cfgDir Prefs.demoWorld 0
              eq_refl eq_refl eq_refl eq_refl eq_refl eq_refl) as (_ & H0 & _).
  destruct (debounce_cycle [] Prefs.docEncode Prefs.cfgDir Prefs.demoWorld 3
              eq_refl eq_refl eq_refl eq_refl eq_refl eq_refl) as (_ & _ & H3).
  split; [exact (proj1 (H0 eq_refl)) |].
  exact (proj1 (H3 ltac:(lia))).
Defined.

Lemma no_listener_no_save_witness :
  Prefs.notify [] Prefs.docEncode Prefs.cfgDir 5 Prefs.anonymousWorld
    = Prefs.anonymousWorld.
Proof.
  exact (proj1 (no_listener_no_save [] Prefs.docEncode Prefs.cfgDir
                  Prefs.anonymousWorld 5 eq_refl)).
Defined.

Lemma loadFromFile_releases_flag_witness :
  Prefs.loadingInProgress
    (Prefs.prefs (fst (Prefs.loadFromFile [] Prefs.docEncode Prefs.docDecode
                         Prefs.cfgDir (Prefs.onDisk Prefs.oldDisk) Prefs.cfgPath)))
    = false.
Proof.
  exact (loadFromFile_releases_flag [] Prefs.docEncode Prefs.docDecode Prefs.cfgDir
           (Prefs.onDisk Prefs.oldDisk) Prefs.cfgPath eq_refl).
Defined.

Lemma loadFromFile_merges_witness :
  Prefs.values
    (Prefs.prefs (fst (Prefs.loadFromFile [] Prefs.docEncode Prefs.docDecode
                         Prefs.cfgDir (Prefs.onDisk Prefs.oldDisk) Prefs.cfgPath)))
    !! "name"%string = Some (Prefs.JString "old") /\
  Prefs.values
    (Prefs.prefs (fst (Prefs.loadFromFile [] Prefs.docEncode Prefs.docDecode
                         Prefs.cfgDir (Prefs.onDisk Prefs.oldDisk) Prefs.cfgPath)))
    !! "scale"%string = Some (Prefs.JNumber 2).
Proof.
  destruct (loadFromFile_merges [] Prefs.docEncode Prefs.docDecode Prefs.cfgDir
              (Prefs.onDisk Prefs.oldDisk) Prefs.cfgPath
              {| Prefs.hpath := Prefs.cfgPath; Prefs.writable := false |}
              (list_to_map [("name"%string, Prefs.JString "old")])
              eq_refl eq_refl) as (Hk & _).
  split; [exact (Hk "name"%string) | exact (Hk "scale"%string)].
Defined.

Lemma loadFromFile_malformed_witness :
  snd (Prefs.loadFromFile [] Prefs.docEncode Prefs.strictDecode Prefs.cfgDir
         (Prefs.onDisk Prefs.emptyFileDisk) Prefs.cfgPath) = Some Prefs.ErrDecode /\
  Prefs.values
    (Prefs.prefs (fst (Prefs.loadFromFile [] Prefs.docEncode Prefs.strictDecode
                         Prefs.cfgDir (Prefs.onDisk Prefs.emptyFileDisk) Prefs.cfgPath)))
    = Prefs.demoValues.
Proof.
  destruct (loadFromFile_malformed [] Prefs.docEncode Prefs.strictDecode Prefs.cfgDir
              (Prefs.onDisk Prefs.emptyFileDisk) Prefs.cfgPath
              {| Prefs.hpath := Prefs.cfgPath; Prefs.writable := false |}
              eq_refl eq_refl) as (H1 & H2 & _).
  split; [exact H1 | exact H2].
Defined.

Lemma load_in_window_saves_later_witness :
  Prefs.numSuspendedChanges
    (Prefs.prefs (fst (Prefs.loadFromFile [] Prefs.docEncode Prefs.docDecode
                         Prefs.cfgDir Prefs.windowWorld Prefs.cfgPath))) = 1 /\
  Prefs.saveCount
    (Prefs.resetFire [] Prefs.docEncode Prefs.cfgDir
       (fst (Prefs.loadFromFile [] Prefs.docEncode Prefs.docDecode
               Prefs.cfgDir Prefs.windowWorld Prefs.cfgPath))) = 1%nat.
Proof.
  assert (Hn : 0 <= Prefs.numSuspendedChanges (Prefs.prefs Prefs.windowWorld)
               < 2 ^ 63 - 1)
    by (split; [discriminate | reflexivity]).
  destruct (load_in_window_saves_later [] Prefs.docEncode Prefs.docDecode Prefs.cfgDir
              Prefs.windowWorld Prefs.cfgPath
              {| Prefs.hpath := Prefs.cfgPath; Prefs.writable := false |} 0%nat
              eq_refl eq_refl eq_refl eq_refl Hn) as (H1 & H2).
  split; [exact H1 | rewrite H2; reflexivity].
Defined.

(** ** Bursts, loads and round trips at concrete stores *)





Lemma save_then_load_witness :
  Prefs.values
    (Prefs.prefs
       (fst (Prefs.loadFromFile [] Prefs.jsonEncode Prefs.jsonDecode Prefs.cfgDir
               (fst (Prefs.saveToFile [] Prefs.jsonEncode Prefs.cfgDir
                       (Prefs.holding Prefs.nativeValues) Prefs.cfgPath))
               Prefs.cfgPath)))
    = Prefs.nativeValues /\
  Prefs.values
    (Prefs.prefs
       (fst (Prefs.loadFromFile [] Prefs.jsonEncode Prefs.jsonDecode Prefs.cfgDir
               (Prefs.with_prefs
                  (fst (Prefs.saveToFile [] Prefs.jsonEncode Prefs.cfgDir
                          (Prefs.holding Prefs.nativeValues) Prefs.cfgPath))
                  (Prefs.newPreferences Prefs.govalue "io.fyne.other" Prefs.cfgPath))
               Prefs.cfgPath)))
    = Prefs.nativeValues.
Proof.
  assert (Hcodec : forall c,
            Prefs.jsonEncode (Prefs.values (Prefs.prefs (Prefs.holding Prefs.nativeValues)))
              = Some c ->
            Prefs.jsonDecode c
              = Some (Prefs.values (Prefs.prefs (Prefs.holding Prefs.nativeValues)))).
  { intros c H. vm_compute in H. injection H as <-. vm_compute. reflexivity. }
  destruct (save_then_load [] Prefs.jsonEncode Prefs.jsonDecode Prefs.cfgDir
              (Prefs.holding Prefs.nativeValues) Prefs.cfgPath
              ltac:(vm_compute; reflexivity) Hcodec eq_refl)
    as (Hsame & Hnew & _).
  split; [exact Hsame | exact (Hnew "io.fyne.other"%string Prefs.cfgPath)].
Defined.

(** C7 as stated fails: a map that holds an [int] is saved without error,
    the file opens, and the map read back holds a [float64] in its place. *)
Lemma int_read_back_as_float :
  snd (Prefs.saveToFile [] Prefs.jsonEncode Prefs.cfgDir
         (Prefs.holding Prefs.intValues) Prefs.cfgPath) = None /\
  snd (Prefs.loadFromFile [] Prefs.jsonEncode Prefs.jsonDecode Prefs.cfgDir
         (fst (Prefs.saveToFile [] Prefs.jsonEncode Prefs.cfgDir
                 (Prefs.holding Prefs.intValues) Prefs.cfgPath))
         Prefs.cfgPath) = None /\
  Prefs.intValues !! "scale"%string = Some (Prefs.GInt 2) /\
  Prefs.values
    (Prefs.prefs
       (fst (Prefs.loadFromFile [] Prefs.jsonEncode Prefs.jsonDecode Prefs.cfgDir
               (fst (Prefs.saveToFile [] Prefs.jsonEncode Prefs.cfgDir
                       (Prefs.holding Prefs.intValues) Prefs.cfgPath))
               Prefs.cfgPath)))
    !! "scale"%string = Some (Prefs.GFloat (Prefs.f64 2)) /\
  Prefs.values
    (Prefs.prefs
       (fst (Prefs.loadFromFile [] Prefs.jsonEncode Prefs.jsonDecode Prefs.cfgDir
               (fst (Prefs.saveToFile [] Prefs.jsonEncode Prefs.cfgDir
                       (Prefs.holding Prefs.intValues) Prefs.cfgPath))
               Prefs.cfgPath)))
    <> Prefs.intValues.
Proof.
  split; [vm_compute; reflexivity |].
  split; [vm_compute; reflexivity |].
  split; [vm_compute; reflexivity |].
  split; [vm_compute; reflexivity |].
  intros H. apply (f_equal (fun m => m !! "scale"%string)) in H.
  vm_compute in H. discriminate H.
Qed.
